(** * Prefect settings: a shallow embedding of [src/prefect/utilities/settings.py]

    The module declares a tree of pydantic [BaseSettings] classes.  The
    development has three layers, each in a module of its own:

    - [Py]: the Python values, string operations and [pathlib] operations
      the module relies on;
    - [Pydantic]: the behaviour of pydantic (v1) that the class declarations
      of the module configure: [Config] inheritance, the environment source,
      field validation, [validate_model], [__setattr__], [SecretStr] and
      [ValidationError];
    - [Settings]: the module itself, statement by statement: the class
      statements, the module-level instances, [NotSetType] and [drop_unset].

    The theorems follow the definitions. *)

From stdpp Require Import gmap strings list fin_maps sorting.
From Stdlib Require Import ZArith QArith Ascii String DecimalString.

Open Scope Z_scope.

(* ===================================================================== *)
(** * Python values and library functions *)
(* ===================================================================== *)

Module Py.

(** ** Outcomes

    A Python call returns a value or raises.  [Unmodelled] marks the inputs
    on which this development does not describe what Python does (for
    example a float literal that binary64 cannot hold exactly); no theorem
    reads it as a success or as an exception. *)

Inductive ErrorWrapper := mkError {
  err_loc : string;      (* the field the error is reported at *)
  err_msg : string;      (* msg_template of the error class *)
  err_type : string      (* 'type_error.bool', 'value_error.extra', ... *)
}.

Inductive exn :=
| ValidationError (model : string) (errors : list ErrorWrapper)
| SettingsError (msg : string)
| TypeError (msg : string)
| ValueError (msg : string)
| AttributeError (msg : string).

Inductive result (A : Type) :=
| Ok (a : A)
| Raise (e : exn)
| Unmodelled.
Arguments Ok {A} a.
Arguments Raise {A} e.
Arguments Unmodelled {A}.

Definition bind {A B} (m : result A) (k : A -> result B) : result B :=
  match m with
  | Ok a => k a
  | Raise e => Raise e
  | Unmodelled => Unmodelled
  end.

(** ** Values

    [float] is modelled by the rational it holds, kept in lowest terms; only
    values that binary64 represents exactly are produced (see
    [float_of_str]).  A [Path] is modelled by its [str()], a [timedelta] by
    its length in microseconds, a model instance by its class name and its
    [__dict__] in field order. *)

#[warnings="-register-all"]
Inductive value :=
| VNone
| VBool (b : bool)
| VInt (z : Z)
| VFloat (q : Q)
| VStr (s : string)
| VPath (s : string)
| VSecretStr (secret_value : string)
| VTimedelta (microseconds : Z)
| VModel (cls : string) (dict : list (string * value))
| VNotSet.                              (* an instance of NotSetType *)

(** ** Characters and strings *)

Definition code (c : ascii) : Z := Z.of_nat (nat_of_ascii c).

Definition is_digit (c : ascii) : bool := (48 <=? code c) && (code c <=? 57).

Definition is_space (c : ascii) : bool :=
  (code c =? 32) || ((9 <=? code c) && (code c <=? 13)).

Definition lower_ascii (c : ascii) : ascii :=
  if (65 <=? code c) && (code c <=? 90)
  then ascii_of_nat (nat_of_ascii c + 32) else c.

Definition upper_ascii (c : ascii) : ascii :=
  if (97 <=? code c) && (code c <=? 122)
  then ascii_of_nat (nat_of_ascii c - 32) else c.

Fixpoint map_string (f : ascii -> ascii) (s : string) : string :=
  match s with
  | EmptyString => EmptyString
  | String c r => String (f c) (map_string f r)
  end.

(** [str.lower] and [str.upper] (on ASCII). *)
Definition lower : string -> string := map_string lower_ascii.
Definition upper : string -> string := map_string upper_ascii.

Fixpoint lstrip (s : string) : string :=
  match s with
  | String c r => if is_space c then lstrip r else s
  | EmptyString => EmptyString
  end.

Fixpoint rstrip (s : string) : string :=
  match s with
  | EmptyString => EmptyString
  | String c r =>
      match rstrip r with
      | EmptyString => if is_space c then EmptyString else String c EmptyString
      | r' => String c r'
      end
  end.

(** [str.strip]. *)
Definition strip (s : string) : string := rstrip (lstrip s).

(** [needle in hay]. *)
Fixpoint contains (needle hay : string) : bool :=
  String.prefix needle hay ||
  match hay with
  | EmptyString => false
  | String _ r => contains needle r
  end.

(** [c in s] for a character. *)
Fixpoint has_char (c : ascii) (s : string) : bool :=
  match s with
  | EmptyString => false
  | String d r => Ascii.eqb c d || has_char c r
  end.

(** [s.split(sep)] for a one-character separator. *)
Fixpoint split (sep : ascii) (s : string) : list string :=
  match s with
  | EmptyString => [EmptyString]
  | String c r =>
      if Ascii.eqb c sep then EmptyString :: split sep r
      else match split sep r with
           | w :: ws => String c w :: ws
           | [] => [String c EmptyString]
           end
  end.

(** [sep.join(parts)]. *)
Fixpoint join (sep : string) (parts : list string) : string :=
  match parts with
  | [] => EmptyString
  | [w] => w
  | w :: ws => w +:+ sep +:+ join sep ws
  end.

(** [str(z)] for an [int]. *)
Definition str_of_int (z : Z) : string := NilEmpty.string_of_int (Z.to_int z).

(** ** [int(s)] and [float(s)] *)

Fixpoint all_digits (s : string) : bool :=
  match s with
  | EmptyString => true
  | String c r => is_digit c && all_digits r
  end.

(** The value of a string of decimal digits, most significant first. *)
Fixpoint digits_value (acc : Z) (s : string) : Z :=
  match s with
  | EmptyString => acc
  | String c r => digits_value (10 * acc + (code c - 48)) r
  end.

Definition split_sign (s : string) : bool * string :=
  match s with
  | String "-" r => (true, r)
  | String "+" r => (false, r)
  | _ => (false, s)
  end.

Definition apply_sign (neg : bool) (z : Z) : Z := if neg then - z else z.

(** [int(s)], base 10: surrounding whitespace, an optional sign, one or more
    digits.  Digit-group underscores are not modelled. *)
Definition int_of_str (s : string) : result Z :=
  let '(neg, body) := split_sign (strip s) in
  if has_char "_" body then Unmodelled
  else if all_digits body && negb (String.eqb body EmptyString)
  then Ok (apply_sign neg (digits_value 0 body))
  else Raise (ValueError "invalid literal for int() with base 10").

(** Splits [s] at the first occurrence of [c]: the part before it, and the
    part after it when [c] occurs. *)
Fixpoint cut (c : ascii) (s : string) : string * option string :=
  match s with
  | EmptyString => (EmptyString, None)
  | String d r =>
      if Ascii.eqb c d then (EmptyString, Some r)
      else let '(a, b) := cut c r in (String d a, b)
  end.

Fixpoint is_pow2 (fuel : nat) (p : positive) : bool :=
  match fuel, p with
  | _, xH => true
  | S n, xO p' => is_pow2 n p'
  | _, _ => false
  end.

(** A sufficient test that binary64 holds [q] exactly: in lowest terms the
    numerator is below [2^53] in magnitude and the denominator is a power of
    two up to [2^1022]. *)
Definition binary64_exact (q : Q) : bool :=
  (Z.abs (Qnum q) <=? 2 ^ 53) && is_pow2 1023 (Qden q).

Definition float_of_Q (q : Q) : result Q :=
  let r := Qred q in
  if binary64_exact r then Ok r else Unmodelled.

(** [float(s)]: surrounding whitespace, an optional sign, digits with an
    optional fraction, an optional exponent.  [inf], [nan], digit-group
    underscores and literals that binary64 rounds are not modelled. *)
Definition float_of_str (s : string) : result Q :=
  let '(neg, body) := split_sign (lower (strip s)) in
  if String.eqb body "inf" || String.eqb body "infinity" || String.eqb body "nan"
     || has_char "_" body
  then Unmodelled
  else
    let '(mant, exp) := cut "e" body in
    let '(ip, fp) := cut "." mant in
    let fp' := default EmptyString fp in
    let ok_mant := all_digits ip && all_digits fp'
                   && negb (String.eqb (ip +:+ fp') EmptyString) in
    let '(eneg, ebody) := split_sign (default "0" exp) in
    let ok_exp := all_digits ebody && negb (String.eqb ebody EmptyString) in
    if ok_mant && ok_exp then
      let m := apply_sign neg (digits_value 0 (ip +:+ fp')) in
      let e := apply_sign eneg (digits_value 0 ebody)
               - Z.of_nat (String.length fp') in
      float_of_Q (if 0 <=? e then inject_Z (m * 10 ^ e)
                  else Qmake m (Z.to_pos (10 ^ (- e))))
    else Raise (ValueError "could not convert string to float").

(** ** [pathlib] (POSIX flavour) *)

(** [str(Path(s))]: a root of one slash (two when the string starts with
    exactly two), then the components that are neither empty nor ["."],
    joined by slashes; ["."] when nothing is left. *)
Definition path_root (s : string) : string :=
  match s with
  | String "/" (String "/" (String "/" _)) => "/"
  | String "/" (String "/" _) => "//"
  | String "/" _ => "/"
  | _ => EmptyString
  end.

Definition path_parts (s : string) : list string :=
  filter (fun w : string => w <> EmptyString /\ w <> ".") (split "/" s).

Definition path_of (root : string) (parts : list string) : string :=
  match root, parts with
  | EmptyString, [] => "."
  | _, _ => root +:+ join "/" parts
  end.

Definition Path (s : string) : string := path_of (path_root s) (path_parts s).

(** The process as the module sees it: [os.environ.items()] and the home
    directory of the current user in the password database. *)
Record process := mkProcess {
  environ : list (string * string);
  pw_dir : string
}.

(** [os.environ.get(k)]. *)
Definition getenv (p : process) (k : string) : option string :=
  snd <$> last (filter (fun kv : string * string => kv.1 = k) (environ p)).

(** [Path.expanduser] on [str(path)]: a relative path whose first component
    is [~] has it replaced by [$HOME], or by the home of the password
    database when [HOME] is unset.  [~user] is not modelled. *)
Definition expanduser (p : process) (path : string) : result string :=
  match path_root path, path_parts path with
  | EmptyString, String "~" user :: rest =>
      if String.eqb user EmptyString then
        Ok (Path (join "/" (default (pw_dir p) (getenv p "HOME") :: rest)))
      else Unmodelled
  | _, _ => Ok path
  end.

End Py.

(* ===================================================================== *)
(** * pydantic: [BaseSettings] *)
(* ===================================================================== *)

Module Pydantic.
Import Py.

(** ** Computations that call default factories

    A default factory runs when a field takes its default, and it reads the
    process at that moment.  Constructions therefore take the process as an
    argument and thread a log of the factory calls made, one entry
    [(class, field)] per call. *)

Definition trace := list (string * string).

Definition M (A : Type) : Type := trace -> result (A * trace).

Definition ret {A} (a : A) : M A := fun t => Ok (a, t).

Definition mbind {A B} (m : M A) (k : A -> M B) : M B :=
  fun t => match m t with
           | Ok (a, t') => k a t'
           | Raise e => Raise e
           | Unmodelled => Unmodelled
           end.

Definition lift {A} (r : result A) : M A :=
  fun t => match r with
           | Ok a => Ok (a, t)
           | Raise e => Raise e
           | Unmodelled => Unmodelled
           end.

Definition tell (ev : string * string) : M unit := fun t => Ok (tt, t ++ [ev]).

Notation "'do' x <- m ; k" := (mbind m (fun x => k))
  (at level 10, x pattern, m at level 99, k at level 200).

(** ** Classes *)

Inductive ftype :=
| TBool | TInt | TFloat | TStr | TPath | TSecretStr | TTimedelta
| TModel (cls : string).

Inductive annotation :=
| Plain (t : ftype)
| Optional (t : ftype).

Inductive default_ :=
| Default (v : value)                              (* name: T = v *)
| DefaultFactory (factory : process -> M value).   (* Field(default_factory=f) *)

Record FieldDecl := mkField {
  name : string;
  ann : annotation;
  field_default : default_
}.

Inductive Extra := Allow | Ignore | Forbid.

Record Config := mkConfig {
  env_prefix : string;
  frozen : bool;
  allow_mutation : bool;
  validate_all : bool;
  extra : Extra;
  case_sensitive : bool
}.

Record ModelClass := mkClass {
  name__ : string;
  config__ : Config;
  fields__ : list FieldDecl
}.

(** What an inner [class Config:] of the module sets. *)
Record ConfigDecl := mkConfigDecl {
  decl_env_prefix : option string;
  decl_frozen : option bool
}.

(** [inherit_config]: the attributes the inner [Config] sets, over those of
    the base class; a class without an inner [Config] keeps the base's. *)
Definition inherit_config (own : option ConfigDecl) (parent : Config) : Config :=
  match own with
  | None => parent
  | Some d =>
      {| env_prefix := default (env_prefix parent) (decl_env_prefix d);
         frozen := default (frozen parent) (decl_frozen d);
         allow_mutation := allow_mutation parent;
         validate_all := validate_all parent;
         extra := extra parent;
         case_sensitive := case_sensitive parent |}
  end.

(** [fields[name] = field] on the ordered field dictionary. *)
Fixpoint set_field (f : FieldDecl) (fs : list FieldDecl) : list FieldDecl :=
  match fs with
  | [] => [f]
  | g :: r => if String.eqb (name g) (name f) then f :: r else g :: set_field f r
  end.

(** The class statement [class name(base): [class Config: ...]; body]. *)
Definition class_ (cname : string) (base : ModelClass)
    (own : option ConfigDecl) (body : list FieldDecl) : ModelClass :=
  {| name__ := cname;
     config__ := inherit_config own (config__ base);
     fields__ := foldl (fun fs f => set_field f fs) (fields__ base) body |}.

(** [BaseSettings] and its [Config]. *)
Definition BaseSettings : ModelClass :=
  {| name__ := "BaseSettings";
     config__ := {| env_prefix := EmptyString; frozen := false; allow_mutation := true;
                    validate_all := true; extra := Forbid;
                    case_sensitive := false |};
     fields__ := [] |}.

Definition type_ (f : FieldDecl) : ftype :=
  match ann f with Plain t | Optional t => t end.

(** [ModelField.allow_none]: the annotation is [Optional], or the field is
    not required and its default is [None]. *)
Definition allow_none (f : FieldDecl) : bool :=
  match ann f, field_default f with
  | Optional _, _ => true
  | Plain _, Default VNone => true
  | Plain _, _ => false
  end.

(** [ModelField.is_complex]. *)
Definition is_complex (f : FieldDecl) : bool :=
  match type_ f with TModel _ => true | _ => false end.

(** ** Validators *)

Inductive vres :=
| Valid (v : value)
| Invalid (msg typ : string)
| NoModel.

Definition BoolError := Invalid "value could not be parsed to a boolean" "type_error.bool".
Definition IntegerError := Invalid "value is not a valid integer" "type_error.integer".
Definition FloatError := Invalid "value is not a valid float" "type_error.float".
Definition StrError := Invalid "str type expected" "type_error.str".
Definition PathError := Invalid "value is not a valid path" "type_error.path".
Definition DictError := Invalid "value is not a valid dict" "type_error.dict".
Definition NoneIsNotAllowedError :=
  Invalid "none is not an allowed value" "type_error.none.not_allowed".

Definition BOOL_FALSE : list string := ["0"; "off"; "f"; "false"; "n"; "no"].
Definition BOOL_TRUE : list string := ["1"; "on"; "t"; "true"; "y"; "yes"].

Definition bool_validator (v : value) : vres :=
  match v with
  | VBool b => Valid (VBool b)
  | VStr s =>
      if bool_decide (lower s ∈ BOOL_TRUE) then Valid (VBool true)
      else if bool_decide (lower s ∈ BOOL_FALSE) then Valid (VBool false)
      else BoolError
  | VInt z =>
      if z =? 1 then Valid (VBool true)
      else if z =? 0 then Valid (VBool false) else BoolError
  | VFloat q =>
      if Qeq_bool q 1 then Valid (VBool true)
      else if Qeq_bool q 0 then Valid (VBool false) else BoolError
  | _ => BoolError
  end.

Definition int_validator (v : value) : vres :=
  match v with
  | VInt z => Valid (VInt z)
  | VBool b => Valid (VInt (if b then 1 else 0))
  | VFloat q => Valid (VInt (Z.quot (Qnum q) (Z.pos (Qden q))))
  | VStr s =>
      match int_of_str s with
      | Ok z => Valid (VInt z)
      | Raise _ => IntegerError
      | Unmodelled => NoModel
      end
  | _ => IntegerError
  end.

Definition of_float (r : result Q) : vres :=
  match r with
  | Ok q => Valid (VFloat q)
  | Raise _ => FloatError
  | Unmodelled => NoModel
  end.

Definition float_validator (v : value) : vres :=
  match v with
  | VFloat q => Valid (VFloat q)
  | VInt z => of_float (float_of_Q (inject_Z z))
  | VBool b => Valid (VFloat (if b then 1 else 0))
  | VStr s => of_float (float_of_str s)
  | _ => FloatError
  end.

Definition str_validator (v : value) : vres :=
  match v with
  | VStr s => Valid (VStr s)
  | VInt z => Valid (VStr (str_of_int z))
  | VBool b => Valid (VStr (if b then "True" else "False"))
  | VFloat _ => NoModel          (* repr of a float *)
  | _ => StrError
  end.

Definition path_validator (v : value) : vres :=
  match v with
  | VPath s => Valid (VPath s)
  | VStr s => Valid (VPath (Path s))
  | _ => PathError
  end.

(** [SecretStr.validate]. *)
Definition SecretStr_validate (v : value) : vres :=
  match v with
  | VSecretStr s => Valid (VSecretStr s)
  | _ => match str_validator v with
         | Valid (VStr s) => Valid (VSecretStr s)
         | r => r
         end
  end.

(** [parse_duration]: a [timedelta] is kept; an [int], or a string that is
    a plain count of seconds, gives that many seconds.  The other layouts
    of the duration patterns are not modelled. *)
Definition seconds (n : Z) : vres :=
  if Z.abs n <=? 1000000000 then Valid (VTimedelta (n * 1000000)) else NoModel.

Definition parse_duration (v : value) : vres :=
  match v with
  | VTimedelta us => Valid (VTimedelta us)
  | VInt n => seconds n
  | VStr s =>
      let '(neg, body) := split_sign s in
      if negb (String.prefix "+" s) && all_digits body
         && negb (String.eqb body EmptyString)
      then seconds (apply_sign neg (digits_value 0 body))
      else NoModel
  | _ => NoModel
  end.

(** [Model.validate]: an instance of the class is accepted; a value that
    [dict()] rejects is an error; dictionaries and instances of other
    models are not modelled. *)
Definition model_validate (cls : string) (v : value) : vres :=
  match v with
  | VModel c d => if String.eqb c cls then Valid (VModel c d) else NoModel
  | _ => DictError
  end.

Definition validate_type (t : ftype) (v : value) : vres :=
  match t with
  | TBool => bool_validator v
  | TInt => int_validator v
  | TFloat => float_validator v
  | TStr => str_validator v
  | TPath => path_validator v
  | TSecretStr => SecretStr_validate v
  | TTimedelta => parse_duration v
  | TModel cls => model_validate cls v
  end.

(** [ModelField.validate]. *)
Definition validate (f : FieldDecl) (v : value) : vres :=
  match v with
  | VNone => if allow_none f then Valid VNone else NoneIsNotAllowedError
  | _ => validate_type (type_ f) v
  end.

(** ** The settings sources *)

Definition env_key (c : Config) (k : string) : string :=
  if case_sensitive c then k else lower k.

(** [env_vars]: [os.environ] itself, or, when the class is not case
    sensitive, [{k.lower(): v for k, v in os.environ.items()}]. *)
Definition env_vars (c : Config) (p : process) : gmap string string :=
  foldl (fun m kv => <[env_key c kv.1 := kv.2]> m) ∅ (environ p).

(** [Config.prepare_field]: the one environment name of a field,
    [env_prefix + field.name], lowercased when not case sensitive. *)
Definition env_name (c : Config) (f : FieldDecl) : string :=
  env_key c (env_prefix c +:+ name f).

(** [EnvSettingsSource.__call__]: the variable of each field that has one.
    The value of a complex field would be decoded as JSON, which is not
    modelled. *)
Fixpoint env_source (c : Config) (vars : gmap string string)
    (fs : list FieldDecl) (d : gmap string value) : result (gmap string value) :=
  match fs with
  | [] => Ok d
  | f :: r =>
      match vars !! env_name c f with
      | None => env_source c vars r d
      | Some raw =>
          if is_complex f then Unmodelled
          else env_source c vars r (<[name f := VStr raw]> d)
      end
  end.

Definition EnvSettingsSource (cls : ModelClass) (p : process)
    : result (gmap string value) :=
  env_source (config__ cls) (env_vars (config__ cls) p) (fields__ cls) ∅.

(** [BaseSettings._build_values]: [deep_update(env, init_kwargs)], the
    keyword arguments over the environment (no value here is a dictionary,
    so the update is not deep). *)
Definition build_values (cls : ModelClass) (p : process)
    (init_kwargs : gmap string value) : result (gmap string value) :=
  bind (EnvSettingsSource cls p) (fun env => Ok (init_kwargs ∪ env)).

(** ** [validate_model] *)

(** [ModelField.get_default]. *)
Definition get_default (cls : ModelClass) (f : FieldDecl) (p : process) : M value :=
  match field_default f with
  | Default v => ret v
  | DefaultFactory factory => do _ <- tell (name__ cls, name f); factory p
  end.

(** One turn of the loop over [model.__fields__]: a field absent from the
    input takes its default, which is validated when [validate_all] is set;
    the turn ends in a value for [values] or in an error for [errors]. *)
Inductive field_result :=
| FValue (v : value)
| FError (e : ErrorWrapper).

Definition check (f : FieldDecl) (v : value) : result field_result :=
  match validate f v with
  | Valid v' => Ok (FValue v')
  | Invalid msg typ => Ok (FError (mkError (name f) msg typ))
  | NoModel => Unmodelled
  end.

Definition validate_field (cls : ModelClass) (p : process)
    (input : gmap string value) (f : FieldDecl) : M field_result :=
  match input !! name f with
  | Some v => lift (check f v)
  | None =>
      do v <- get_default cls f p;
      if validate_all (config__ cls) then lift (check f v) else ret (FValue v)
  end.

Fixpoint validate_fields (cls : ModelClass) (p : process)
    (input : gmap string value) (fs : list FieldDecl)
    (values : list (string * value)) (errors : list ErrorWrapper)
    : M (list (string * value) * list ErrorWrapper) :=
  match fs with
  | [] => ret (values, errors)
  | f :: r =>
      do x <- validate_field cls p input f;
      match x with
      | FValue v => validate_fields cls p input r (values ++ [(name f, v)]) errors
      | FError e => validate_fields cls p input r values (errors ++ [e])
      end
  end.

Definition str_le (a b : string) : Prop := String.leb a b = true.

#[global] Instance str_le_dec a b : Decision (str_le a b).
Proof. unfold str_le. apply _. Defined.

(** [sorted(input_data.keys() - names_used)]. *)
Definition extra_keys (cls : ModelClass) (input : gmap string value) : list string :=
  merge_sort str_le
    (filter (fun k => k ∉ name <$> fields__ cls) (elements (dom input))).

Definition ExtraError (k : string) : ErrorWrapper :=
  mkError k "extra fields not permitted" "value_error.extra".

Definition validate_model (cls : ModelClass) (p : process)
    (input : gmap string value) : M (list (string * value) * list ErrorWrapper) :=
  do (values, errors) <- validate_fields cls p input (fields__ cls) [] [];
  ret match extra (config__ cls) with
      | Ignore => (values, errors)
      | Allow =>
          (values ++ omap (fun k => pair k <$> input !! k) (extra_keys cls input),
           errors)
      | Forbid => (values, errors ++ (ExtraError <$> extra_keys cls input))
      end.

(** [BaseModel.__init__]. *)
Definition BaseModel_init (cls : ModelClass) (p : process)
    (data : gmap string value) : M value :=
  do (values, errors) <- validate_model cls p data;
  match errors with
  | [] => ret (VModel (name__ cls) values)
  | _ => lift (Raise (ValidationError (name__ cls) errors))
  end.

(** [BaseSettings.__init__]: calling the class with keyword arguments
    [values]. *)
Definition BaseSettings_init (cls : ModelClass) (p : process)
    (values : gmap string value) : M value :=
  do data <- lift (build_values cls p values);
  BaseModel_init cls p data.

(** ** Attributes *)

Fixpoint dict_get (d : list (string * value)) (k : string) : option value :=
  match d with
  | [] => None
  | (k', v) :: r => if String.eqb k' k then Some v else dict_get r k
  end.

Fixpoint dict_set (d : list (string * value)) (k : string) (v : value)
    : list (string * value) :=
  match d with
  | [] => [(k, v)]
  | (k', v') :: r =>
      if String.eqb k' k then (k, v) :: r else (k', v') :: dict_set r k v
  end.

Definition is_allow (e : Extra) : bool :=
  match e with Allow => true | _ => false end.

Definition quoted (s : string) : string :=
  String (ascii_of_nat 34) s +:+ String (ascii_of_nat 34) EmptyString.

(** [self.name]. *)
Definition getattr (self : value) (n : string) : option value :=
  match self with
  | VModel _ d => dict_get d n
  | _ => None
  end.

(** [BaseModel.__setattr__] ([validate_assignment] is off in every class of
    the module): the exception raised, if any, and the object afterwards. *)
Definition setattr (cls : ModelClass) (self : value) (n : string) (v : value)
    : option exn * value :=
  match self with
  | VModel c d =>
      if negb (is_allow (extra (config__ cls)))
         && negb (bool_decide (n ∈ name <$> fields__ cls))
      then (Some (ValueError (quoted (name__ cls) +:+ " object has no field "
                              +:+ quoted n)), self)
      else if negb (allow_mutation (config__ cls)) || frozen (config__ cls)
      then (Some (TypeError (quoted (name__ cls) +:+
              " is immutable and does not support item assignment")), self)
      else (None, VModel c (dict_set d n v))
  | _ => (Some (TypeError "not a model instance"), self)
  end.

(** ** [SecretStr] *)

Definition SecretStr_str (secret_value : string) : string :=
  if String.eqb secret_value EmptyString then EmptyString else "**********".

Definition get_secret_value (secret_value : string) : string := secret_value.

(** [SecretField.__eq__]. *)
Definition SecretStr_eq (self other : value) : bool :=
  match self, other with
  | VSecretStr a, VSecretStr b => String.eqb a b
  | _, _ => false
  end.

(** ** Rendering *)

(** [str(v)], as an f-string applies it. *)
Definition str (v : value) : result string :=
  match v with
  | VNone => Ok "None"
  | VBool b => Ok (if b then "True" else "False")
  | VInt z => Ok (str_of_int z)
  | VStr s => Ok s
  | VPath s => Ok s
  | VSecretStr s => Ok (SecretStr_str s)
  | _ => Unmodelled
  end.

Definition newline : string := String (ascii_of_nat 10) EmptyString.

(** [display_errors]. *)
Definition display_error (e : ErrorWrapper) : string :=
  err_loc e +:+ newline +:+ "  " +:+ err_msg e +:+ " (type=" +:+ err_type e +:+ ")".

(** [ValidationError.__str__]. *)
Definition ValidationError_str (model : string) (errors : list ErrorWrapper) : string :=
  str_of_int (Z.of_nat (List.length errors)) +:+ " validation error"
  +:+ (if (List.length errors =? 1)%nat then EmptyString else "s")
  +:+ " for " +:+ model +:+ newline +:+ join newline (display_error <$> errors).

End Pydantic.

(* ===================================================================== *)
(** * The module [prefect.utilities.settings] *)
(* ===================================================================== *)

Module Settings.
Import Py Pydantic.

(** ** The class statements

    A class statement runs when the module is loaded: the expressions of its
    body, defaults included, are evaluated then, and the class object keeps
    their values.  A class whose body reads the process or an earlier
    module-level name therefore takes it as an argument. *)

(** Lines 13-29, given the value [home] of the default expression of the
    field [home]. *)
Definition PrefectSettings_with (home : string) : ModelClass :=
  class_ "PrefectSettings" BaseSettings
    (Some {| decl_env_prefix := Some "PREFECT_"; decl_frozen := Some true |})
    [ mkField "home" (Plain TPath) (Default (VPath home));
      mkField "debug_mode" (Plain TBool) (Default (VBool false));
      mkField "test_mode" (Plain TBool) (Default (VBool false)) ].

(** Line 25: the default expression is [Path("~/.prefect").expanduser()]. *)
Definition PrefectSettings_class (p : process) : result ModelClass :=
  bind (expanduser p (Path "~/.prefect")) (fun home =>
  Ok (PrefectSettings_with home)).

(** Lines 36-45. *)
Definition DataLocationSettings_class : ModelClass :=
  class_ "DataLocationSettings" BaseSettings
    (Some {| decl_env_prefix := Some "PREFECT_ORION_DATA_";
             decl_frozen := Some true |})
    [ mkField "name" (Plain TStr) (Default (VStr "default"));
      mkField "scheme" (Plain TStr) (Default (VStr "file"));
      mkField "base_path" (Plain TStr) (Default (VStr "/tmp")) ].

(** The attribute [obj.n] of a module-level instance, formatted by an
    f-string. *)
Definition format_attr (obj : value) (n : string) : result string :=
  match getattr obj n with
  | Some v => str v
  | None => Raise (AttributeError n)
  end.

(** Lines 48-64, given the value [url] of the default expression of the
    field [connection_url]. *)
Definition DatabaseSettings_with (url : string) : ModelClass :=
  class_ "DatabaseSettings" BaseSettings
    (Some {| decl_env_prefix := Some "PREFECT_ORION_DATABASE_";
             decl_frozen := Some true |})
    [ mkField "connection_url" (Plain TSecretStr) (Default (VStr url));
      mkField "echo" (Plain TBool) (Default (VBool false));
      mkField "timeout" (Optional TFloat) (Default (VInt 1));
      mkField "services_timeout" (Optional TFloat) (Default VNone) ].

(** Line 55: the default expression is the f-string
    [f"sqlite+aiosqlite:////{SharedSettings.home}/orion.db"]. *)
Definition DatabaseSettings_class (SharedSettings : value) : result ModelClass :=
  bind (format_attr SharedSettings "home") (fun home =>
  Ok (DatabaseSettings_with ("sqlite+aiosqlite:////" +:+ home +:+ "/orion.db"))).

(** Lines 67-75.  The class has no inner [Config]. *)
Definition APISettings_class : ModelClass :=
  class_ "APISettings" BaseSettings None
    [ mkField "default_limit" (Plain TInt) (Default (VInt 200));
      mkField "host" (Plain TStr) (Default (VStr "127.0.0.1"));
      mkField "port" (Plain TInt) (Default (VInt 5000));
      mkField "uvicorn_log_level" (Plain TStr) (Default (VStr "info")) ].

(** [timedelta(days=d)]. *)
Definition timedelta_days (d : Z) : value := VTimedelta (d * 86400 * 1000000).

(** Lines 78-100. *)
Definition ServicesSettings_class : ModelClass :=
  class_ "ServicesSettings" BaseSettings
    (Some {| decl_env_prefix := Some "PREFECT_ORION_SERVICES_";
             decl_frozen := Some true |})
    [ mkField "run_in_app" (Plain TBool) (Default (VBool false));
      mkField "scheduler_loop_seconds" (Plain TFloat) (Default (VInt 60));
      mkField "scheduler_deployment_batch_size" (Plain TInt) (Default (VInt 100));
      mkField "scheduler_max_runs" (Plain TInt) (Default (VInt 100));
      mkField "scheduler_max_scheduled_time" (Plain TTimedelta)
        (Default (timedelta_days 100));
      mkField "agent_loop_seconds" (Plain TFloat) (Default (VInt 5));
      mkField "agent_prefetch_seconds" (Plain TInt) (Default (VInt 10)) ].

(** [Field(default_factory=cls)]: the factory is the class, called with no
    argument when the field takes its default. *)
Definition factory (cls : ModelClass) : default_ :=
  DefaultFactory (fun p => BaseSettings_init cls p ∅).

(** Lines 103-113.  The nested classes are those defined before it; of
    these only [DatabaseSettings] depends on the load. *)
Definition OrionSettings_class (DatabaseSettings : ModelClass) : ModelClass :=
  class_ "OrionSettings" BaseSettings
    (Some {| decl_env_prefix := Some "PREFECT_ORION_"; decl_frozen := Some true |})
    [ mkField "database" (Plain (TModel (name__ DatabaseSettings)))
        (factory DatabaseSettings);
      mkField "data" (Plain (TModel (name__ DataLocationSettings_class)))
        (factory DataLocationSettings_class);
      mkField "api" (Plain (TModel (name__ APISettings_class)))
        (factory APISettings_class);
      mkField "services" (Plain (TModel (name__ ServicesSettings_class)))
        (factory ServicesSettings_class) ].

(** Lines 116-123, given the value [path] of the default expression of the
    field [settings_path]. *)
Definition LoggingSettings_with (path : string) : ModelClass :=
  class_ "LoggingSettings" BaseSettings
    (Some {| decl_env_prefix := Some "PREFECT_LOGGING_";
             decl_frozen := Some true |})
    [ mkField "settings_path" (Plain TPath) (Default (VPath path)) ].

(** Line 123: the default expression is
    [Path(f"{SharedSettings.home}/logging.yml")]. *)
Definition LoggingSettings_class (SharedSettings : value) : result ModelClass :=
  bind (format_attr SharedSettings "home") (fun home =>
  Ok (LoggingSettings_with (Path (home +:+ "/logging.yml")))).

(** Lines 126-138.  [Settings] extends [PrefectSettings] and has no inner
    [Config]. *)
Definition Settings_class (PrefectSettings LoggingSettings OrionSettings : ModelClass)
    : ModelClass :=
  class_ "Settings" PrefectSettings None
    [ mkField "logging" (Plain (TModel (name__ LoggingSettings)))
        (factory LoggingSettings);
      mkField "orion" (Plain (TModel (name__ OrionSettings)))
        (factory OrionSettings);
      mkField "orion_host" (Plain TStr) (Default VNone) ].

(** ** The module namespace

    The names bound when the module has been loaded.  The record keeps the
    classes and instances that depend on the process at load time; the
    other classes are the constants above, and [OrionSettings] and
    [Settings] are built from the recorded ones. *)

Record module := mkModule {
  PrefectSettings : ModelClass;
  SharedSettings : value;
  DatabaseSettings : ModelClass;
  LoggingSettings : ModelClass;
  settings : value
}.

Definition DataLocationSettings : ModelClass := DataLocationSettings_class.
Definition APISettings : ModelClass := APISettings_class.
Definition ServicesSettings : ModelClass := ServicesSettings_class.

Definition OrionSettings (m : module) : ModelClass :=
  OrionSettings_class (DatabaseSettings m).

Definition Settings (m : module) : ModelClass :=
  Settings_class (PrefectSettings m) (LoggingSettings m) (OrionSettings m).

(** Loading the module in process [p]: its statements in order.  Lines 33
    and 141 construct instances. *)
Definition load (p : process) : M module :=
  do PrefectSettings <- lift (PrefectSettings_class p);
  do SharedSettings <- BaseSettings_init PrefectSettings p ∅;
  do DatabaseSettings <- lift (DatabaseSettings_class SharedSettings);
  do LoggingSettings <- lift (LoggingSettings_class SharedSettings);
  do settings <-
    BaseSettings_init
      (Settings_class PrefectSettings LoggingSettings
         (OrionSettings_class DatabaseSettings)) p ∅;
  ret (mkModule PrefectSettings SharedSettings DatabaseSettings
         LoggingSettings settings).

(** ** [NotSetType], [NOTSET] and [drop_unset] (lines 144-153) *)

(** [NotSetType.__eq__]: [isinstance(o, NotSetType)]. *)
Definition NotSetType_eq (self o : value) : bool :=
  match o with VNotSet => true | _ => false end.

Definition NOTSET : value := VNotSet.

(** [value != NOTSET].  For every class of value here the comparison ends
    in the negation of [NotSetType.__eq__]: the classes that define no
    comparison with a foreign object defer to the reflected operand, and
    [SecretStr] and the models compare unequal to an object of another
    class. *)
Definition ne_NOTSET (v : value) : bool := negb (NotSetType_eq NOTSET v).

Definition drop_unset (kwargs : gmap string value) : gmap string value :=
  filter (fun kv => ne_NOTSET kv.2) kwargs.

End Settings.

(* ===================================================================== *)
(** * Definitions used in the statements *)
(* ===================================================================== *)

Import Py Pydantic Settings.

(** ** Processes *)

(** A process whose environment holds nothing for the settings. *)
Definition clean : process := mkProcess [("HOME", "/home/u")] "/home/u".

(** The environment of [p] with [var] set to [raw]. *)
Definition setenv (var raw : string) (p : process) : process :=
  mkProcess (filter (fun kv : string * string => kv.1 <> var) (environ p)
             ++ [(var, raw)]) (pw_dir p).

(** The home directory [expanduser] puts in place of [~]. *)
Definition user_home (p : process) : string :=
  default (pw_dir p) (getenv p "HOME").

(** No variable of the process is named [var], whatever the case. *)
Definition unset (p : process) (var : string) : Prop :=
  forall k v, (k, v) ∈ environ p -> lower k <> lower var.

#[global] Instance unset_dec p var : Decision (unset p var).
Proof.
  refine (cast_if (decide (Forall (fun kv : string * string =>
                                     lower kv.1 <> lower var) (environ p))));
    unfold unset; rewrite Forall_forall in *.
  - intros k v Hin. exact (f (k, v) Hin).
  - intros H. apply n. intros [k v] Hin. exact (H k v Hin).
Defined.

(** ** Groups of classes of a loaded module *)

(** The groups of the tree rooted at [Settings]. *)
Definition tree_classes (m : module) : list ModelClass :=
  [ Settings m; LoggingSettings m; OrionSettings m; DatabaseSettings m;
    DataLocationSettings; APISettings; ServicesSettings ].

(** All the classes of the module. *)
Definition classes (m : module) : list ModelClass :=
  PrefectSettings m :: tree_classes m.

(** The classes whose fields are all scalar. *)
Definition leaf_classes (m : module) : list ModelClass :=
  [ PrefectSettings m; LoggingSettings m; DatabaseSettings m;
    DataLocationSettings; APISettings; ServicesSettings ].

(** The classes of the module that declare [frozen = True], or inherit it. *)
Definition frozen_classes (m : module) : list ModelClass :=
  [ PrefectSettings m; DataLocationSettings; DatabaseSettings m;
    ServicesSettings; OrionSettings m; LoggingSettings m; Settings m ].

(** The environment names of the scalar fields of a class. *)
Definition scalar_env_names (cls : ModelClass) : list string :=
  env_name (config__ cls) <$> filter (fun f => is_complex f = false) (fields__ cls).

(** A class whose fields all have literal defaults makes no factory call. *)
Definition literal_defaults (cls : ModelClass) : Prop :=
  forall f, f ∈ fields__ cls -> exists v, field_default f = Default v.

(** What the construction lemmas ask of a class: the [Config] inherited
    from [BaseSettings], distinct field names, and for every scalar field a
    literal default that validates. *)
Record well_formed (cls : ModelClass) : Prop := {
  wf_extra : extra (config__ cls) = Forbid;
  wf_validate_all : validate_all (config__ cls) = true;
  wf_case : case_sensitive (config__ cls) = false;
  wf_names : NoDup (name <$> fields__ cls);
  wf_defaults :
    Forall (fun f => is_complex f = false ->
              exists dv v, field_default f = Default dv /\ validate f dv = Valid v)
           (fields__ cls)
}.

(** ** Values named in the statements *)

(** The value a field is resolved from, in the order of the specification:
    the override when there is one other than [NOTSET], else the
    environment variable of the field, else the declared default [dv]. *)
Definition resolution_source (cls : ModelClass) (p : process)
    (overrides : gmap string value) (f : FieldDecl) (dv : value) : value :=
  let from_env :=
    match env_vars (config__ cls) p !! env_name (config__ cls) f with
    | Some raw => VStr raw
    | None => dv
    end in
  match overrides !! name f with
  | Some x => if ne_NOTSET x then x else from_env
  | None => from_env
  end.

(** The two defaults derived from the shared home (lines 55 and 123). *)
Definition connection_url_of (home : string) : string :=
  "sqlite+aiosqlite:////" +:+ home +:+ "/orion.db".

Definition settings_path_of (home : string) : string :=
  Path (home +:+ "/logging.yml").

(** The text a non-empty secret renders as. *)
Definition mask : string := "**********".

(** The error of the boolean validator at the field [echo]. *)
Definition echo_error : ErrorWrapper :=
  mkError "echo" "value could not be parsed to a boolean" "type_error.bool".

(** ** Traces of factory calls *)

(** The factory calls of one construction of [OrionSettings], and those the
    root makes itself. *)
Definition orion_calls : trace :=
  [ ("OrionSettings", "database"); ("OrionSettings", "data");
    ("OrionSettings", "api"); ("OrionSettings", "services") ].

Definition settings_calls : trace :=
  [ ("Settings", "logging"); ("Settings", "orion") ].

(** [orion.database.timeout]. *)
Definition timeout_of (orion : value) : option value :=
  getattr orion "database" ≫= fun db => getattr db "timeout".

(** ** Types of the values of an instance *)

(** [isinstance(v, t)] for the type of a field. *)
Definition has_type (t : ftype) (v : value) : bool :=
  match t, v with
  | TBool, VBool _ | TInt, VInt _ | TFloat, VFloat _ | TStr, VStr _
  | TPath, VPath _ | TSecretStr, VSecretStr _ | TTimedelta, VTimedelta _ => true
  | TModel c, VModel c' _ => String.eqb c c'
  | _, _ => false
  end.

(** A value a field may hold: one of its type, or [None] when the field
    allows it. *)
Definition field_typed (f : FieldDecl) (v : value) : bool :=
  match v with
  | VNone => allow_none f
  | _ => has_type (type_ f) v
  end.

(** ** The variables of the settings *)

(** The names of the environment variables the classes of the module read,
    in upper case. *)
Definition settings_variables : list string :=
  [ "PREFECT_HOME"; "PREFECT_DEBUG_MODE"; "PREFECT_TEST_MODE";
    "PREFECT_LOGGING"; "PREFECT_ORION"; "PREFECT_ORION_HOST";
    "PREFECT_LOGGING_SETTINGS_PATH";
    "PREFECT_ORION_DATABASE"; "PREFECT_ORION_DATA"; "PREFECT_ORION_API";
    "PREFECT_ORION_SERVICES";
    "PREFECT_ORION_DATABASE_CONNECTION_URL"; "PREFECT_ORION_DATABASE_ECHO";
    "PREFECT_ORION_DATABASE_TIMEOUT"; "PREFECT_ORION_DATABASE_SERVICES_TIMEOUT";
    "PREFECT_ORION_DATA_NAME"; "PREFECT_ORION_DATA_SCHEME";
    "PREFECT_ORION_DATA_BASE_PATH";
    "DEFAULT_LIMIT"; "HOST"; "PORT"; "UVICORN_LOG_LEVEL";
    "PREFECT_ORION_SERVICES_RUN_IN_APP";
    "PREFECT_ORION_SERVICES_SCHEDULER_LOOP_SECONDS";
    "PREFECT_ORION_SERVICES_SCHEDULER_DEPLOYMENT_BATCH_SIZE";
    "PREFECT_ORION_SERVICES_SCHEDULER_MAX_RUNS";
    "PREFECT_ORION_SERVICES_SCHEDULER_MAX_SCHEDULED_TIME";
    "PREFECT_ORION_SERVICES_AGENT_LOOP_SECONDS";
    "PREFECT_ORION_SERVICES_AGENT_PREFETCH_SECONDS" ].

(** The process sets none of them. *)
Definition no_settings_variable (p : process) : Prop :=
  Forall (unset p) settings_variables.

(** What the process holds for each of them, by the lookup of the classes:
    the name in lower case among the lowercased names of the environment. *)
Definition settings_environment (p : process) : list (option string) :=
  (fun var => env_vars (config__ BaseSettings) p !! lower var)
    <$> settings_variables.

(** ** The errors of a construction *)

(** What a field without a factory is validated from: its entry of the
    input, else its declared default. *)
Definition field_input (data : gmap string value) (f : FieldDecl) : option value :=
  match data !! name f with
  | Some v => Some v
  | None =>
      match field_default f with
      | Default dv => Some dv
      | DefaultFactory _ => None
      end
  end.

(** The error of the validator on it, located at the field. *)
Definition field_error (data : gmap string value) (f : FieldDecl)
    : option ErrorWrapper :=
  field_input data f ≫= fun x =>
    match validate f x with
    | Invalid msg typ => Some (mkError (name f) msg typ)
    | _ => None
    end.

(** The errors of the fields in the order of the class body, then those
    of the keys of the input that name no field, sorted. *)
Definition errors_of (cls : ModelClass) (data : gmap string value)
    : list ErrorWrapper :=
  omap (field_error data) (fields__ cls) ++ (ExtraError <$> extra_keys cls data).

(** Every value a field is validated from is one the model of its
    validator covers. *)
Definition modelled (cls : ModelClass) (data : gmap string value) : Prop :=
  forall f x, f ∈ fields__ cls -> field_input data f = Some x ->
              validate f x <> NoModel.

(** ** The tree of the declared defaults *)

Definition default_shared (home : string) : list (string * value) :=
  [ ("home", VPath home); ("debug_mode", VBool false); ("test_mode", VBool false) ].

Definition default_logging (home : string) : value :=
  VModel "LoggingSettings" [ ("settings_path", VPath (settings_path_of home)) ].

Definition default_database (home : string) : value :=
  VModel "DatabaseSettings"
    [ ("connection_url", VSecretStr (connection_url_of home));
      ("echo", VBool false); ("timeout", VFloat 1); ("services_timeout", VNone) ].

Definition default_data : value :=
  VModel "DataLocationSettings"
    [ ("name", VStr "default"); ("scheme", VStr "file"); ("base_path", VStr "/tmp") ].

Definition default_api : value :=
  VModel "APISettings"
    [ ("default_limit", VInt 200); ("host", VStr "127.0.0.1"); ("port", VInt 5000);
      ("uvicorn_log_level", VStr "info") ].

Definition default_services : value :=
  VModel "ServicesSettings"
    [ ("run_in_app", VBool false); ("scheduler_loop_seconds", VFloat 60);
      ("scheduler_deployment_batch_size", VInt 100);
      ("scheduler_max_runs", VInt 100);
      ("scheduler_max_scheduled_time", VTimedelta 8640000000000);
      ("agent_loop_seconds", VFloat 5); ("agent_prefetch_seconds", VInt 10) ].

Definition default_orion (home : string) : value :=
  VModel "OrionSettings"
    [ ("database", default_database home); ("data", default_data);
      ("api", default_api); ("services", default_services) ].

Definition default_tree (home : string) : value :=
  VModel "Settings"
    (default_shared home ++
     [ ("logging", default_logging home); ("orion", default_orion home);
       ("orion_host", VNone) ]).

(* ===================================================================== *)
(** * Properties of the construction of a settings class *)
(* ===================================================================== *)

(** ** Inversion of the monad *)

Lemma mbind_Ok {A B} (m : M A) (k : A -> M B) t r :
  mbind m k t = Ok r -> exists a t1, m t = Ok (a, t1) /\ k a t1 = Ok r.
Proof.
  unfold mbind. destruct (m t) as [[a t1]| |]; [eauto | discriminate..].
Qed.

Lemma lift_Ok {A} (r : result A) t a t' :
  lift r t = Ok (a, t') -> r = Ok a /\ t' = t.
Proof. destruct r; simpl; intros; simplify_eq; auto. Qed.

Lemma ret_Ok {A} (a b : A) t t' : ret a t = Ok (b, t') -> b = a /\ t' = t.
Proof. unfold ret. intros; simplify_eq; auto. Qed.

Lemma bind_Ok {A B} (m : result A) (k : A -> result B) b :
  bind m k = Ok b -> exists a, m = Ok a /\ k a = Ok b.
Proof. destruct m; simpl; [eauto | discriminate..]. Qed.

Ltac inv_M :=
  repeat match goal with
  | H : mbind _ _ _ = Ok _ |- _ =>
      apply mbind_Ok in H; destruct H as (? & ? & ? & H)
  | H : lift _ _ = Ok (_, _) |- _ => apply lift_Ok in H; destruct H as [H ?]
  | H : ret _ _ = Ok (_, _) |- _ => apply ret_Ok in H; destruct H as [? ?]
  | H : bind _ _ = Ok _ |- _ => apply bind_Ok in H; destruct H as (? & ? & H)
  | H : Ok _ = Ok _ |- _ => injection H as H
  end; subst.

(** ** Dictionaries in field order *)

Lemma dict_get_elem (d : list (string * value)) k v :
  NoDup d.*1 -> (k, v) ∈ d -> dict_get d k = Some v.
Proof.
  induction d as [|[k' v'] d IH]; intros Hnd Hin; [by inversion Hin|].
  simpl in *. apply NoDup_cons in Hnd as [Hk Hnd].
  apply elem_of_cons in Hin as [Heq|Hin].
  - simplify_eq. by rewrite String.eqb_refl.
  - destruct (String.eqb_spec k' k) as [->|_]; [|auto].
    exfalso. apply Hk. apply list_elem_of_fmap. by exists (k, v).
Qed.

(** ** The environment source *)

Section Engine.
Context (cls : ModelClass) (p : process).
Let c := config__ cls.

(** The environment source gives each simple field its variable, and fails
    to be a result as soon as a complex field has one. *)
Lemma env_source_lookup vars fs d d' :
  env_source c vars fs d = Ok d' ->
  NoDup (name <$> fs) ->
  forall f, f ∈ fs ->
    d' !! name f =
      match vars !! env_name c f with
      | Some raw => Some (VStr raw)
      | None => d !! name f
      end.
Proof.
  revert d. induction fs as [|g fs IH]; intros d H Hnd f Hf; [by inversion Hf|].
  simpl in H, Hnd. apply NoDup_cons in Hnd as [Hg Hnd].
  assert (Hother : forall d0 d1, env_source c vars fs d0 = Ok d1 ->
            name g ∉ name <$> fs -> d1 !! name g = d0 !! name g).
  { clear. induction fs as [|h fs IH]; intros d0 d1 H Hn; simpl in H.
    - by simplify_eq.
    - apply not_elem_of_cons in Hn as [Hne Hn].
      destruct (vars !! env_name c h); [destruct (is_complex h); [discriminate|]|].
      + rewrite (IH _ _ H Hn). by rewrite lookup_insert_ne.
      + by apply IH. }
  apply elem_of_cons in Hf as [->|Hf].
  - destruct (vars !! env_name c g) as [raw|].
    + destruct (is_complex g); [discriminate|].
      rewrite (Hother _ _ H Hg). by rewrite lookup_insert_eq.
    + by apply Hother.
  - destruct (vars !! env_name c g) as [raw|].
    + destruct (is_complex g); [discriminate|].
      rewrite (IH _ H Hnd f Hf).
      destruct (vars !! env_name c f); [done|].
      rewrite lookup_insert_ne; [done|].
      intros Heq. apply Hg. rewrite Heq. apply list_elem_of_fmap. eauto.
    + by apply IH.
Qed.

Lemma env_source_simple vars fs d d' f raw :
  env_source c vars fs d = Ok d' -> f ∈ fs ->
  vars !! env_name c f = Some raw -> is_complex f = false.
Proof.
  revert d. induction fs as [|g fs IH]; intros d H Hf Hv; [by inversion Hf|].
  simpl in H. apply elem_of_cons in Hf as [->|Hf].
  - rewrite Hv in H. by destruct (is_complex g).
  - destruct (vars !! env_name c g); [destruct (is_complex g); [discriminate|]|];
      eauto.
Qed.

(** The input of [validate_model]: the keyword argument of a field, else its
    environment variable as a string. *)
Lemma build_values_lookup kwargs data f :
  build_values cls p kwargs = Ok data ->
  NoDup (name <$> fields__ cls) -> f ∈ fields__ cls ->
  data !! name f =
    match kwargs !! name f with
    | Some v => Some v
    | None => VStr <$> env_vars c p !! env_name c f
    end.
Proof.
  unfold build_values, EnvSettingsSource. intros H Hnd Hf. inv_M.
  rewrite lookup_union.
  rewrite (env_source_lookup _ _ _ _ H0 Hnd f Hf). fold c.
  rewrite lookup_empty.
  destruct (kwargs !! name f), (env_vars c p !! env_name c f); done.
Qed.

End Engine.

(** ** The loop over the fields *)

Section Loop.
Context (cls : ModelClass) (p : process) (data : gmap string value).

(** A successful run of the loop extends [values] and [errors]; every field
    had its turn, which put a value or an error there; the names of the new
    values follow the order of the fields. *)
Lemma validate_fields_inv fs vs es t vs' es' t' :
  validate_fields cls p data fs vs es t = Ok ((vs', es'), t') ->
  exists nv ne,
    vs' = vs ++ nv /\ es' = es ++ ne /\
    nv.*1 `sublist_of` (name <$> fs) /\
    forall f, f ∈ fs ->
      exists t1 t2 x, validate_field cls p data f t1 = Ok (x, t2) /\
        match x with
        | FValue v => (name f, v) ∈ nv
        | FError e => e ∈ ne
        end.
Proof.
  revert vs es t. induction fs as [|f fs IH]; intros vs es t H; simpl in H.
  - inv_M. simplify_eq. exists [], []. rewrite !app_nil_r.
    repeat split; [constructor|].
    intros f Hf. by inversion Hf.
  - apply mbind_Ok in H as (x & t1 & Hx & H). destruct x as [v|e].
    + apply IH in H as (nv & ne & -> & -> & Hsub & Hall).
      exists ((name f, v) :: nv), ne. rewrite <- app_assoc. repeat split.
      * simpl. by apply sublist_skip.
      * intros g [->|Hg]%elem_of_cons.
        -- exists t, t1, (FValue v). split; [done|left].
        -- destruct (Hall g Hg) as (u1 & u2 & [w|e] & Hw & Hin);
             exists u1, u2; [exists (FValue w)|exists (FError e)];
             (split; [done|]); [by right|done].
    + apply IH in H as (nv & ne & -> & -> & Hsub & Hall).
      exists nv, (e :: ne). rewrite <- app_assoc. repeat split.
      * simpl. by apply sublist_cons.
      * intros g [->|Hg]%elem_of_cons.
        -- exists t, t1, (FError e). split; [done|left].
        -- destruct (Hall g Hg) as (u1 & u2 & [w|e'] & Hw & Hin);
             exists u1, u2; [exists (FValue w)|exists (FError e')];
             (split; [done|]); [done|by right].
Qed.

(** When no field takes a factory the trace is left as it was. *)
Lemma validate_fields_trace fs vs es t r t' :
  (forall f, f ∈ fs -> exists v, field_default f = Default v) ->
  validate_fields cls p data fs vs es t = Ok (r, t') -> t' = t.
Proof.
  revert vs es t. induction fs as [|f fs IH]; intros vs es t Hd H; simpl in H.
  - by inv_M.
  - apply mbind_Ok in H as (x & t1 & Hx & H).
    assert (t1 = t) as ->.
    { unfold validate_field, get_default in Hx.
      destruct (Hd f) as [dv Hdv]; [left|]. rewrite Hdv in Hx.
      destruct (data !! name f); [by inv_M|].
      apply mbind_Ok in Hx as (? & ? & ? & Hx). inv_M.
      destruct (validate_all (config__ cls)); by inv_M. }
    destruct x; eapply IH; eauto; intros g Hg; apply Hd; by right.
Qed.

End Loop.

(** ** Construction *)

(** A successful construction: the input was built, the loop over the
    fields ended without an error, no keyword was left over, and the
    instance holds the validated values. *)
Lemma init_Ok_inv cls p kwargs t v t' :
  extra (config__ cls) = Forbid ->
  BaseSettings_init cls p kwargs t = Ok (v, t') ->
  exists data d,
    build_values cls p kwargs = Ok data /\
    validate_fields cls p data (fields__ cls) [] [] t = Ok ((d, []), t') /\
    extra_keys cls data = [] /\
    v = VModel (name__ cls) d.
Proof.
  intros Hex H. unfold BaseSettings_init, BaseModel_init, validate_model in H.
  apply mbind_Ok in H as (data & t1 & Hb & H).
  apply lift_Ok in Hb as [Hb ->].
  apply mbind_Ok in H as ([values errors] & t2 & Hv & H).
  apply mbind_Ok in Hv as ([vs es] & t3 & Hv & Hr).
  rewrite Hex in Hr. apply ret_Ok in Hr as [[= -> ->] ->].
  exists data, vs.
  destruct (es ++ (ExtraError <$> extra_keys cls data)) as [|e l] eqn:E.
  - apply ret_Ok in H as [-> ->]. apply app_nil in E as [-> E].
    apply fmap_nil_inv in E. done.
  - destruct (lift_Ok _ _ _ _ H) as [? _]. discriminate.
Qed.

Lemma init_Ok_instance cls p kwargs t v t' :
  BaseSettings_init cls p kwargs t = Ok (v, t') ->
  exists d, v = VModel (name__ cls) d.
Proof.
  intros H. unfold BaseSettings_init, BaseModel_init in H.
  apply mbind_Ok in H as (data & t1 & _ & H).
  apply mbind_Ok in H as ([values errors] & t2 & _ & H).
  destruct errors; [|destruct (lift_Ok _ _ _ _ H); discriminate].
  apply ret_Ok in H as [-> _]. eauto.
Qed.

Lemma init_trace cls p kwargs t v t' :
  literal_defaults cls ->
  BaseSettings_init cls p kwargs t = Ok (v, t') -> t' = t.
Proof.
  intros Hd H. unfold BaseSettings_init, BaseModel_init, validate_model in H.
  apply mbind_Ok in H as (data & t1 & Hb & H).
  apply lift_Ok in Hb as [Hb ->].
  apply mbind_Ok in H as ([values errors] & t2 & Hv & H).
  apply mbind_Ok in Hv as ([vs es] & t3 & Hv & Hr).
  apply ret_Ok in Hr as [_ ->].
  apply validate_fields_trace in Hv as ->; [|done].
  destruct errors; [by apply ret_Ok in H as [_ ->]|].
  destruct (lift_Ok _ _ _ _ H); discriminate.
Qed.

(** The value a successful construction gives a field is the one its turn
    of the loop produced. *)
Lemma init_field cls p kwargs t d t' f :
  extra (config__ cls) = Forbid ->
  NoDup (name <$> fields__ cls) -> f ∈ fields__ cls ->
  BaseSettings_init cls p kwargs t = Ok (VModel (name__ cls) d, t') ->
  exists data t1 t2 v,
    build_values cls p kwargs = Ok data /\
    validate_field cls p data f t1 = Ok (FValue v, t2) /\
    dict_get d (name f) = Some v.
Proof.
  intros Hex Hnd Hf H.
  apply init_Ok_inv in H as (data & d' & Hb & Hv & _ & [= <-]); [|done].
  apply validate_fields_inv in Hv as (nv & ne & Hd & Hne & Hsub & Hall).
  simpl in Hd. subst d.
  symmetry in Hne. apply app_nil in Hne as [_ ->].
  destruct (Hall f Hf) as (t1 & t2 & [v|e] & Hx & Hin); [|by inversion Hin].
  exists data, t1, t2, v. repeat split; [done..|].
  apply dict_get_elem; [|done]. eapply sublist_NoDup; eauto.
Qed.

(** ** The order of resolution *)

Lemma drop_unset_lookup (kwargs : gmap string value) k :
  drop_unset kwargs !! k =
    match kwargs !! k with
    | Some x => if ne_NOTSET x then Some x else None
    | None => None
    end.
Proof.
  unfold drop_unset. destruct (kwargs !! k) as [x|] eqn:E.
  - destruct (ne_NOTSET x) eqn:Hx.
    + apply map_lookup_filter_Some. split; [done|]. simpl. by rewrite Hx.
    + apply map_lookup_filter_None. right. intros y Hy. simplify_eq.
      simpl. rewrite Hx. simpl. tauto.
  - apply map_lookup_filter_None. by left.
Qed.

Lemma resolution_order cls p overrides t d t' f dv :
  extra (config__ cls) = Forbid -> validate_all (config__ cls) = true ->
  NoDup (name <$> fields__ cls) -> f ∈ fields__ cls ->
  field_default f = Default dv ->
  BaseSettings_init cls p (drop_unset overrides) t = Ok (VModel (name__ cls) d, t') ->
  exists v, dict_get d (name f) = Some v /\
            validate f (resolution_source cls p overrides f dv) = Valid v.
Proof.
  intros Hex Hall Hnd Hf Hdv H.
  destruct (init_field _ _ _ _ _ _ f Hex Hnd Hf H)
    as (data & t1 & t2 & v & Hb & Hx & Hget).
  exists v. split; [done|].
  pose proof (build_values_lookup _ _ _ _ f Hb Hnd Hf) as Hl.
  rewrite drop_unset_lookup in Hl.
  unfold validate_field, get_default, resolution_source in *.
  rewrite Hdv, Hall in Hx.
  assert (Hchk : forall x u1 u2, lift (check f x) u1 = Ok (FValue v, u2) ->
                   validate f x = Valid v).
  { intros x u1 u2 Hc. apply lift_Ok in Hc as [Hc _]. unfold check in Hc.
    destruct (validate f x); by simplify_eq. }
  destruct (overrides !! name f) as [x|]; [destruct (ne_NOTSET x)|];
    destruct (env_vars (config__ cls) p !! env_name (config__ cls) f) as [raw|];
    simpl in Hl; rewrite Hl in Hx; eauto;
    apply mbind_Ok in Hx as (? & ? & Hr & Hx); apply ret_Ok in Hr as [-> ->];
    eauto.
Qed.

(** ** The classes of a loaded module *)

(** Decides a closed decidable proposition by evaluation. *)
Ltac by_decide :=
  match goal with
  | |- ?P => apply (@bool_decide_unpack P _); vm_compute; exact I
  end.

Lemma validate_path f x v :
  type_ f = TPath -> allow_none f = false -> validate f x = Valid v ->
  exists s, v = VPath s.
Proof.
  unfold validate. intros -> ->. destruct x; simpl; intros; simplify_eq; eauto.
Qed.

Lemma load_inv p0 t0 m t1 :
  load p0 t0 = Ok (m, t1) ->
  exists h s,
    expanduser p0 (Path "~/.prefect") = Ok h /\
    PrefectSettings m = PrefectSettings_with h /\
    BaseSettings_init (PrefectSettings m) p0 ∅ t0 = Ok (SharedSettings m, t0) /\
    getattr (SharedSettings m) "home" = Some (VPath s) /\
    DatabaseSettings m =
      DatabaseSettings_with ("sqlite+aiosqlite:////" +:+ s +:+ "/orion.db") /\
    LoggingSettings m = LoggingSettings_with (Path (s +:+ "/logging.yml")) /\
    BaseSettings_init (Settings m) p0 ∅ t0 = Ok (settings m, t1).
Proof.
  unfold load. intros H.
  apply mbind_Ok in H as (PS & u1 & HPS & H). apply lift_Ok in HPS as [HPS ->].
  apply mbind_Ok in H as (SS & u2 & HSS & H).
  apply mbind_Ok in H as (DB & u3 & HDB & H). apply lift_Ok in HDB as [HDB ->].
  apply mbind_Ok in H as (LG & u4 & HLG & H). apply lift_Ok in HLG as [HLG ->].
  apply mbind_Ok in H as (st & u5 & Hst & H). apply ret_Ok in H as [-> ->].
  unfold PrefectSettings_class in HPS. apply bind_Ok in HPS as (h & Hh & [= <-]).
  assert (u2 = t0) as ->.
  { eapply init_trace; [|exact HSS]. intros f Hf. vm_compute in Hf.
    repeat (apply elem_of_cons in Hf as [->|Hf]; [simpl; eauto|]).
    by inversion Hf. }
  unfold DatabaseSettings_class in HDB. apply bind_Ok in HDB as (s & Hs & [= <-]).
  unfold LoggingSettings_class in HLG. apply bind_Ok in HLG as (s' & Hs' & [= <-]).
  rewrite Hs in Hs'. injection Hs' as <-.
  exists h, s. simpl. repeat split; try done.
  destruct (init_Ok_instance _ _ _ _ _ _ HSS) as [d ->].
  assert (Hnd : NoDup (name <$> fields__ (PrefectSettings_with h)))
    by by_decide.
  destruct (init_field (PrefectSettings_with h) _ _ _ _ _
              (mkField "home" (Plain TPath) (Default (VPath h)))
              eq_refl Hnd ltac:(left) HSS)
    as (data & w1 & w2 & v & _ & Hx & Hget).
  assert (exists s0, v = VPath s0) as [s0 ->].
  { unfold validate_field, get_default in Hx. simpl in Hx.
    destruct (data !! "home") as [x|].
    - apply lift_Ok in Hx as [Hx _]. unfold check in Hx.
      destruct (validate _ x) eqn:E; simplify_eq.
      eapply validate_path; [..|exact E]; done.
    - apply mbind_Ok in Hx as (? & ? & Hr & Hx). apply ret_Ok in Hr as [-> ->].
      apply lift_Ok in Hx as [Hx _]. vm_compute in Hx. simplify_eq. eauto. }
  unfold format_attr in Hs. simpl in Hs, Hget |- *. rewrite Hget in Hs |- *.
  simpl in Hs. by simplify_eq.
Qed.

(** The fields of the two classes that hold nested groups. *)
Lemma OrionSettings_fields m :
  fields__ (OrionSettings m) =
    [ mkField "database" (Plain (TModel (name__ (DatabaseSettings m))))
        (factory (DatabaseSettings m));
      mkField "data" (Plain (TModel "DataLocationSettings"))
        (factory DataLocationSettings);
      mkField "api" (Plain (TModel "APISettings")) (factory APISettings);
      mkField "services" (Plain (TModel "ServicesSettings"))
        (factory ServicesSettings) ].
Proof. reflexivity. Qed.

Lemma Settings_fields m h :
  PrefectSettings m = PrefectSettings_with h ->
  fields__ (Settings m) =
    [ mkField "home" (Plain TPath) (Default (VPath h));
      mkField "debug_mode" (Plain TBool) (Default (VBool false));
      mkField "test_mode" (Plain TBool) (Default (VBool false));
      mkField "logging" (Plain (TModel (name__ (LoggingSettings m))))
        (factory (LoggingSettings m));
      mkField "orion" (Plain (TModel "OrionSettings")) (factory (OrionSettings m));
      mkField "orion_host" (Plain TStr) (Default VNone) ].
Proof. unfold Settings, Settings_class. intros ->. reflexivity. Qed.

Lemma Settings_config m h :
  PrefectSettings m = PrefectSettings_with h ->
  config__ (Settings m) = config__ (PrefectSettings_with h).
Proof. unfold Settings, Settings_class. intros ->. reflexivity. Qed.

(** ** Variables of the environment *)

Lemma env_vars_unset c p var :
  case_sensitive c = false -> unset p var -> env_vars c p !! lower var = None.
Proof.
  unfold env_vars, unset, env_key. intros -> H.
  assert (G : forall l (m0 : gmap string string),
            (forall k v, (k, v) ∈ l -> lower k <> lower var) ->
            m0 !! lower var = None ->
            foldl (fun m kv => <[lower kv.1 := kv.2]> m) m0 l !! lower var = None).
  { induction l as [|[k v] l IH]; intros m0 Hl Hm; simpl; [done|].
    apply IH; [intros k' v' Hin; apply (Hl k' v'); by right|].
    rewrite lookup_insert_ne; [done|]. apply (Hl k v). left. }
  by apply G.
Qed.

(* ===================================================================== *)
(** * The claims *)
(* ===================================================================== *)

(** ** The helper [drop_unset] *)

(** C9.  The mapping [drop_unset] returns holds exactly the entries of the
    keyword mapping whose value is not [NOTSET], each under its own key;
    an entry whose value is [None] or the empty string is kept. *)
Theorem C9_drop_unset (kwargs : gmap string value) :
  (forall k v,
     drop_unset kwargs !! k = Some v <-> kwargs !! k = Some v /\ v <> NOTSET) /\
  (forall k, kwargs !! k = Some VNone -> drop_unset kwargs !! k = Some VNone) /\
  (forall k, kwargs !! k = Some (VStr EmptyString) ->
             drop_unset kwargs !! k = Some (VStr EmptyString)).
Proof.
  split; [|split].
  - intros k v. rewrite drop_unset_lookup. split.
    + destruct (kwargs !! k) as [x|]; [|done].
      destruct x; simpl; intros; by simplify_eq.
    + intros [-> Hv]. destruct v; simpl; done.
  - intros k H. rewrite drop_unset_lookup, H. done.
  - intros k H. rewrite drop_unset_lookup, H. done.
Qed.

Lemma C9_drop_unset_witness :
  let kwargs : gmap string value :=
    {[ "name" := VStr EmptyString; "timeout" := VNone;
       "echo" := NOTSET; "port" := VInt 80 ]} in
  kwargs !! "timeout" = Some VNone /\
  drop_unset kwargs !! "timeout" = Some VNone /\
  drop_unset kwargs !! "name" = Some (VStr EmptyString) /\
  drop_unset kwargs !! "echo" = None.
Proof.
  intros kwargs.
  destruct (C9_drop_unset kwargs) as (Hiff & Hnone & Hempty).
  assert (Ht : kwargs !! "timeout" = Some VNone) by (vm_compute; reflexivity).
  split; [|split; [|split]].
  - exact Ht.
  - exact (Hnone "timeout" Ht).
  - apply Hempty. vm_compute. reflexivity.
  - destruct (drop_unset kwargs !! "echo") as [v|] eqn:E; [|reflexivity].
    apply Hiff in E as [E Hv]. vm_compute in E. injection E as <-.
    destruct Hv. reflexivity.
Defined.

(** ** Secret strings *)

(** C7, as the specification states it, fails: the secret made from the
    empty string does not render as the mask (and the secret made from a
    string of mask characters renders as that very string). *)
Lemma C7_counterexample :
  ~ (forall raw, SecretStr_str raw = mask) /\
  SecretStr_validate (VStr EmptyString) = Valid (VSecretStr EmptyString) /\
  SecretStr_str EmptyString = EmptyString /\
  SecretStr_str mask = mask.
Proof.
  split; [|split; [|split]]; [|reflexivity..].
  intros H. specialize (H EmptyString). discriminate.
Qed.

Lemma has_char_mask c : has_char c mask = true -> c = "*"%char.
Proof.
  unfold mask. simpl.
  destruct (Ascii.eqb_spec c "*"); [done|]. simpl. discriminate.
Qed.

(** C7, amended.  A secret made from a raw string renders as the fixed mask
    when the raw string is not empty and as the empty string when it is, so
    the rendering shows no character of the raw string other than the mask
    character; [get_secret_value] returns the raw string; two secrets are
    equal exactly when their raw strings are. *)
Theorem C7_secret_str (raw : string) :
  SecretStr_validate (VStr raw) = Valid (VSecretStr raw) /\
  SecretStr_str raw = (if decide (raw = EmptyString) then EmptyString else mask) /\
  (forall c, has_char c (SecretStr_str raw) = true -> c = "*"%char) /\
  (forall raw', raw <> EmptyString -> raw' <> EmptyString ->
                SecretStr_str raw = SecretStr_str raw') /\
  get_secret_value raw = raw /\
  (forall raw', SecretStr_eq (VSecretStr raw) (VSecretStr raw') = true <->
                raw = raw').
Proof.
  assert (Hstr : SecretStr_str raw =
                   if decide (raw = EmptyString) then EmptyString else mask).
  { unfold SecretStr_str.
    destruct (String.eqb_spec raw EmptyString), (decide (raw = EmptyString));
      done. }
  split; [|split; [|split; [|split; [|split]]]].
  - reflexivity.
  - exact Hstr.
  - intros c. rewrite Hstr.
    destruct (decide _); [discriminate|apply has_char_mask].
  - intros raw' H H'. unfold SecretStr_str.
    destruct (String.eqb_spec raw EmptyString), (String.eqb_spec raw' EmptyString);
      done.
  - reflexivity.
  - intros raw'. simpl. split.
    + by intros ?%String.eqb_eq.
    + intros ->. apply String.eqb_refl.
Qed.

Lemma C7_secret_str_witness :
  SecretStr_str "hunter2" = mask /\ SecretStr_str "hunter2" = SecretStr_str "s3cret" /\
  SecretStr_eq (VSecretStr "hunter2") (VSecretStr "hunter2") = true.
Proof.
  destruct (C7_secret_str "hunter2") as (_ & Hstr & _ & Hsame & _ & Heq).
  split; [|split].
  - exact Hstr.
  - apply Hsame; discriminate.
  - apply Heq. reflexivity.
Defined.

(** ** The field [orion_host] *)

Lemma drop_unset_empty : drop_unset ∅ = ∅.
Proof. apply map_filter_empty. Qed.

(** C10.  When [PREFECT_ORION_HOST] is unset and no override is given, the
    field [orion_host] of the root tree, declared with type [str], is
    [None]. *)
Theorem C10_orion_host p0 t0 m t1 :
  load p0 t0 = Ok (m, t1) ->
  unset p0 "PREFECT_ORION_HOST" ->
  (exists f, f ∈ fields__ (Settings m) /\ name f = "orion_host" /\
             ann f = Plain TStr) /\
  getattr (settings m) "orion_host" = Some VNone.
Proof.
  intros Hload Hunset.
  destruct (load_inv _ _ _ _ Hload) as (h & s & _ & HPS & _ & _ & _ & _ & Hst).
  pose proof (Settings_fields m h HPS) as Hfs.
  set (f := mkField "orion_host" (Plain TStr) (Default VNone)).
  assert (Hf : f ∈ fields__ (Settings m)).
  { rewrite Hfs. do 5 right. left. }
  split; [by exists f|].
  destruct (init_Ok_instance _ _ _ _ _ _ Hst) as [d Hd]. rewrite Hd in Hst |- *.
  rewrite <- drop_unset_empty in Hst.
  destruct (resolution_order (Settings m) p0 ∅ t0 d t1 f VNone) as (v & Hget & Hv);
    try done.
  - by rewrite (Settings_config m h HPS).
  - by rewrite (Settings_config m h HPS).
  - rewrite Hfs. by_decide.
  - unfold f in Hget. simpl in Hget |- *. rewrite Hget. f_equal.
    unfold resolution_source in Hv. rewrite lookup_empty in Hv.
    rewrite (Settings_config m h HPS) in Hv.
    change (env_name _ f) with (lower "PREFECT_ORION_HOST") in Hv.
    rewrite env_vars_unset in Hv; [|done..].
    simpl in Hv. by simplify_eq.
Qed.

Lemma C10_orion_host_witness :
  exists m t, load clean [] = Ok (m, t) /\
              getattr (settings m) "orion_host" = Some VNone.
Proof.
  destruct (load clean []) as [[m t]| |] eqn:E;
    [|vm_compute in E; discriminate..].
  exists m, t. split; [reflexivity|].
  apply (C10_orion_host clean [] m t E). by_decide.
Defined.

(** ** Assignment to a field *)

Lemma setattr_frozen cls c d n v :
  extra (config__ cls) = Forbid -> frozen (config__ cls) = true ->
  n ∈ name <$> fields__ cls ->
  exists msg, setattr cls (VModel c d) n v = (Some (TypeError msg), VModel c d).
Proof.
  intros Hex Hfr Hn. unfold setattr. rewrite Hex, Hfr. simpl.
  rewrite bool_decide_eq_true_2 by done. simpl.
  rewrite orb_true_r. eauto.
Qed.

Lemma frozen_classes_config p0 t0 m t1 cls :
  load p0 t0 = Ok (m, t1) -> cls ∈ frozen_classes m ->
  extra (config__ cls) = Forbid /\ frozen (config__ cls) = true.
Proof.
  intros Hload Hcls.
  destruct (load_inv _ _ _ _ Hload) as (h & s & _ & HPS & _ & _ & HDB & HLG & _).
  unfold frozen_classes in Hcls.
  repeat (apply elem_of_cons in Hcls as [->|Hcls]);
    [..|by inversion Hcls];
    rewrite ?(Settings_config m h HPS), ?HPS, ?HDB, ?HLG; by split.
Qed.

(** C2.  An instance of a class that is frozen refuses the assignment to
    any of its fields with a [TypeError] and is left as it was; an instance
    of [APISettings], which declares no [Config], takes the assignment, and
    the field then holds the new value. *)
Theorem C2_assignment p0 t0 m t1 :
  load p0 t0 = Ok (m, t1) ->
  (forall cls d n v,
     cls ∈ frozen_classes m -> n ∈ name <$> fields__ cls ->
     exists msg,
       setattr cls (VModel (name__ cls) d) n v
       = (Some (TypeError msg), VModel (name__ cls) d)) /\
  frozen (config__ APISettings) = false /\
  (forall d v,
     setattr APISettings (VModel "APISettings" d) "port" v
     = (None, VModel "APISettings" (dict_set d "port" v)) /\
     getattr (VModel "APISettings" (dict_set d "port" v)) "port" = Some v).
Proof.
  intros Hload. split; [|split].
  - intros cls d n v Hcls Hn.
    destruct (frozen_classes_config _ _ _ _ _ Hload Hcls) as [Hex Hfr].
    by apply setattr_frozen.
  - reflexivity.
  - intros d v. split; [reflexivity|].
    simpl. induction d as [|[k w] d IH]; simpl.
    + reflexivity.
    + destruct (String.eqb_spec k "port") as [->|Hne]; simpl.
      * reflexivity.
      * destruct (String.eqb_spec k "port"); [done|exact IH].
Qed.

(** The assignment [settings.orion.api.port = 6000] on the tree of a clean
    process goes through: the frozen tree holds a group that can be
    changed. *)
Lemma C2_assignment_witness :
  exists m t api,
    load clean [] = Ok (m, t) /\
    (getattr (settings m) "orion" ≫= fun o => getattr o "api") = Some api /\
    getattr api "port" = Some (VInt 5000) /\
    exists api',
      setattr APISettings api "port" (VInt 6000) = (None, api') /\
      getattr api' "port" = Some (VInt 6000).
Proof.
  destruct (load clean []) as [[m t]| |] eqn:E;
    [|vm_compute in E; discriminate..].
  destruct (C2_assignment clean [] m t E) as (_ & _ & Hset).
  pose proof E as E'. vm_compute in E'. injection E' as <- <-.
  eexists _, _, (VModel "APISettings" _).
  split; [reflexivity|]. split; [vm_compute; reflexivity|].
  split; [vm_compute; reflexivity|].
  eexists. exact (Hset _ (VInt 6000)).
Defined.

(** ** Environment prefixes *)

Lemma lower_app a b : lower (a +:+ b) = lower a +:+ lower b.
Proof. unfold lower. induction a as [|c a IH]; simpl; [done|]. by rewrite IH. Qed.

Lemma lower_upper_ascii c : lower_ascii (upper_ascii c) = lower_ascii c.
Proof. destruct c as [[] [] [] [] [] [] [] []]; reflexivity. Qed.

Lemma lower_upper s : lower (upper s) = lower s.
Proof.
  unfold lower, upper. induction s as [|c s IH]; simpl; [done|].
  by rewrite lower_upper_ascii, IH.
Qed.

(** C6.  In every class the environment name of a field is the prefix of
    the class followed by the field name, matched whatever the case, and
    the names of the scalar fields of the tree are pairwise distinct; the
    classes that declare a [Config] have the prefix it gives, while
    [APISettings], which declares none, has the empty prefix: its fields
    are read from [DEFAULT_LIMIT], [HOST], [PORT] and [UVICORN_LOG_LEVEL]. *)
Theorem C6_env_prefix p0 t0 m t1 :
  load p0 t0 = Ok (m, t1) ->
  (forall cls f,
     env_name (config__ cls) f = env_key (config__ cls) (env_prefix (config__ cls) +:+ name f) /\
     (case_sensitive (config__ cls) = false ->
      env_name (config__ cls) f
      = lower (env_prefix (config__ cls) +:+ upper (name f)))) /\
  env_prefix <$> (config__ <$> tree_classes m)
  = [ "PREFECT_"; "PREFECT_LOGGING_"; "PREFECT_ORION_"; "PREFECT_ORION_DATABASE_";
      "PREFECT_ORION_DATA_"; EmptyString; "PREFECT_ORION_SERVICES_" ] /\
  scalar_env_names APISettings
  = [ lower "DEFAULT_LIMIT"; lower "HOST"; lower "PORT"; lower "UVICORN_LOG_LEVEL" ] /\
  NoDup (List.concat (scalar_env_names <$> tree_classes m)).
Proof.
  intros Hload.
  destruct (load_inv _ _ _ _ Hload) as (h & s & _ & HPS & _ & _ & HDB & HLG & _).
  split; [|split; [|split]].
  - intros cls f. split; [reflexivity|].
    unfold env_name, env_key. intros ->.
    by rewrite !lower_app, lower_upper.
  - unfold tree_classes. rewrite !fmap_cons.
    rewrite (Settings_config m h HPS), HDB, HLG. reflexivity.
  - reflexivity.
  - unfold tree_classes, scalar_env_names. rewrite !fmap_cons.
    rewrite (Settings_config m h HPS), (Settings_fields m h HPS).
    rewrite (OrionSettings_fields m), HDB, HLG.
    by_decide.
Qed.

(** With [PORT=80] in the environment, and nothing under a [PREFECT_] name,
    the API group of the tree listens on port 80. *)
Lemma C6_env_prefix_witness :
  exists m t,
    load (setenv "PORT" "80" clean) [] = Ok (m, t) /\
    env_prefix (config__ APISettings) = EmptyString /\
    (getattr (settings m) "orion" ≫= fun o => getattr o "api"
       ≫= fun a => getattr a "port") = Some (VInt 80).
Proof.
  destruct (load (setenv "PORT" "80" clean) []) as [[m t]| |] eqn:E;
    [|vm_compute in E; discriminate..].
  destruct (C6_env_prefix _ [] m t E) as (_ & Hprefix & _ & _).
  exists m, t. split; [reflexivity|]. split.
  - exact (f_equal (fun l => default EmptyString (l !! 5%nat)) Hprefix).
  - vm_compute in E. injection E as <- <-. vm_compute. reflexivity.
Defined.

(** ** The classes of the module are well formed *)

Ltac solve_wf :=
  split; [reflexivity | reflexivity | reflexivity | by_decide |];
  repeat (apply Forall_cons; split;
          [first [ discriminate
                 | intros _; eexists; eexists; split; reflexivity ]|]);
  apply Forall_nil_2.

Lemma classes_wf p0 t0 m t1 cls :
  load p0 t0 = Ok (m, t1) -> cls ∈ classes m -> well_formed cls.
Proof.
  intros Hload Hcls.
  destruct (load_inv _ _ _ _ Hload) as (h & s & _ & HPS & _ & _ & HDB & HLG & _).
  pose proof (Settings_config m h HPS) as Hc.
  pose proof (Settings_fields m h HPS) as Hfs.
  unfold classes, tree_classes in Hcls.
  repeat (apply elem_of_cons in Hcls as [->|Hcls]); [..|by inversion Hcls].
  - rewrite HPS. solve_wf.
  - destruct (Settings m) as [n c fs]. simpl in Hc, Hfs. subst c fs. solve_wf.
  - rewrite HLG. solve_wf.
  - solve_wf.
  - rewrite HDB. solve_wf.
  - solve_wf.
  - solve_wf.
  - solve_wf.
Qed.

(** ** Resolution of a scalar field *)



(** ** Defaults derived from the shared settings *)

Lemma prefix_refl s : String.prefix s s = true.
Proof.
  induction s as [|c s IH]; simpl; [done|].
  destruct (ascii_dec c c); [exact IH|done].
Qed.

Lemma contains_unfold needle hay :
  contains needle hay =
    String.prefix needle hay ||
    match hay with
    | EmptyString => false
    | String _ r => contains needle r
    end.
Proof. destruct hay; reflexivity. Qed.

Lemma contains_app_r a x : contains x (a +:+ x) = true.
Proof.
  induction a as [|c a IH]; rewrite contains_unfold.
  - change (EmptyString +:+ x) with x. by rewrite prefix_refl.
  - change (String c a +:+ x) with (String c (a +:+ x)). cbv iota.
    rewrite IH. apply orb_true_r.
Qed.

Lemma env_source_unset c vars fs d :
  (forall f, f ∈ fs -> vars !! env_name c f = None) ->
  env_source c vars fs d = Ok d.
Proof.
  induction fs as [|f fs IH]; intros H; simpl; [done|].
  rewrite (H f) by left. apply IH. intros g Hg. apply H. by right.
Qed.

(** With no variable for any field, and no keyword, the construction is
    that of the model from an empty input. *)
Lemma init_unset cls p t :
  (forall f, f ∈ fields__ cls ->
             env_vars (config__ cls) p !! env_name (config__ cls) f = None) ->
  BaseSettings_init cls p ∅ t = BaseModel_init cls p ∅ t.
Proof.
  intros H. unfold BaseSettings_init, build_values, EnvSettingsSource.
  rewrite (env_source_unset _ _ _ _ H). simpl.
  unfold mbind, lift. by rewrite (left_id_L ∅ (∪)).
Qed.

(** C1, as the specification states it, fails: the module is loaded with
    the shared home at [/home/u], the environment then moves it to
    [/home/v], and the groups are constructed.  The shared settings
    resolved at that moment have [/home/v]; the connection string and the
    logging path still have [/home/u]. *)
Lemma C1_counterexample :
  let p0 := setenv "PREFECT_HOME" "/home/u" clean in
  let p1 := setenv "PREFECT_HOME" "/home/v" clean in
  exists m t shared db lg,
    load p0 [] = Ok (m, t) /\
    BaseSettings_init (PrefectSettings m) p1 ∅ [] = Ok (shared, []) /\
    getattr shared "home" = Some (VPath "/home/v") /\
    BaseSettings_init (DatabaseSettings m) p1 ∅ [] = Ok (db, []) /\
    getattr db "connection_url"
    = Some (VSecretStr "sqlite+aiosqlite://///home/u/orion.db") /\
    contains "/home/v/orion.db" "sqlite+aiosqlite://///home/u/orion.db" = false /\
    BaseSettings_init (LoggingSettings m) p1 ∅ [] = Ok (lg, []) /\
    getattr lg "settings_path" = Some (VPath "/home/u/logging.yml").
Proof.
  intros p0 p1.
  destruct (load p0 []) as [[m t]| |] eqn:E;
    [|vm_compute in E; discriminate..].
  vm_compute in E. injection E as <- <-.
  eexists _, _, _, _, _.
  split; [reflexivity|].
  split; [vm_compute; reflexivity|]. split; [reflexivity|].
  split; [vm_compute; reflexivity|]. split; [reflexivity|].
  split; [vm_compute; reflexivity|].
  split; [vm_compute; reflexivity|]. reflexivity.
Qed.

(** C1, amended.  The defaults derived from the shared settings are
    computed when the module is loaded, from the [home] of the
    [SharedSettings] instance built then, and are kept by the classes: a
    later construction of the owning group, with no variable for the field,
    gives the field that value whatever [PREFECT_HOME] then is.  The
    connection string contains the shared home followed by [/orion.db]. *)
Theorem C1_derived_defaults p0 t0 m t1 :
  load p0 t0 = Ok (m, t1) ->
  exists home,
    getattr (SharedSettings m) "home" = Some (VPath home) /\
    DatabaseSettings m = DatabaseSettings_with (connection_url_of home) /\
    LoggingSettings m = LoggingSettings_with (settings_path_of home) /\
    (forall p t inst t',
       unset p "PREFECT_ORION_DATABASE_CONNECTION_URL" ->
       BaseSettings_init (DatabaseSettings m) p ∅ t = Ok (inst, t') ->
       getattr inst "connection_url" = Some (VSecretStr (connection_url_of home))) /\
    (forall p t,
       unset p "PREFECT_LOGGING_SETTINGS_PATH" ->
       BaseSettings_init (LoggingSettings m) p ∅ t
       = Ok (VModel "LoggingSettings"
               [("settings_path", VPath (settings_path_of home))], t)) /\
    contains (home +:+ "/orion.db") (connection_url_of home) = true.
Proof.
  intros Hload.
  destruct (load_inv _ _ _ _ Hload) as (h & s & _ & _ & _ & Hhome & HDB & HLG & _).
  exists s. split; [done|]. split; [done|]. split; [done|].
  split; [|split].
  - intros p t inst t' Hunset H. rewrite HDB in H.
    destruct (init_Ok_instance _ _ _ _ _ _ H) as [d ->].
    rewrite <- drop_unset_empty in H.
    destruct (resolution_order (DatabaseSettings_with (connection_url_of s))
                p ∅ t d t'
                (mkField "connection_url" (Plain TSecretStr)
                   (Default (VStr (connection_url_of s))))
                (VStr (connection_url_of s)) eq_refl eq_refl
                ltac:(by_decide) ltac:(left) eq_refl H) as (v & Hget & Hv).
    simpl in Hget |- *. rewrite Hget. f_equal.
    unfold resolution_source in Hv. rewrite lookup_empty in Hv.
    change (env_name _ _)
      with (lower "PREFECT_ORION_DATABASE_CONNECTION_URL") in Hv.
    rewrite env_vars_unset in Hv; [|done..].
    simpl in Hv. by simplify_eq.
  - intros p t Hunset. rewrite HLG, init_unset; [reflexivity|].
    intros f [->|Hf]%elem_of_cons; [|by inversion Hf].
    by apply (env_vars_unset _ p "PREFECT_LOGGING_SETTINGS_PATH").
  - unfold connection_url_of. apply contains_app_r.
Qed.

(** With the shared home at [/home/u] when the module is loaded, the
    connection string contains [/home/u/orion.db]. *)
Lemma C1_derived_defaults_witness :
  exists m t db,
    load (setenv "PREFECT_HOME" "/home/u" clean) [] = Ok (m, t) /\
    getattr (SharedSettings m) "home" = Some (VPath "/home/u") /\
    BaseSettings_init (DatabaseSettings m) clean ∅ []
    = Ok (VModel "DatabaseSettings" db, []) /\
    dict_get db "connection_url" = Some (VSecretStr (connection_url_of "/home/u")) /\
    contains "/home/u/orion.db" (connection_url_of "/home/u") = true.
Proof.
  destruct (load (setenv "PREFECT_HOME" "/home/u" clean) []) as [[m t]| |] eqn:E;
    [|vm_compute in E; discriminate..].
  destruct (C1_derived_defaults _ [] m t E)
    as (home & Hhome & HDB & _ & Hurl & _ & Hcontains).
  pose proof E as E'. vm_compute in E'. injection E' as <- <-.
  vm_compute in Hhome. injection Hhome as <-.
  destruct (BaseSettings_init (DatabaseSettings_with (connection_url_of "/home/u"))
              clean ∅ []) as [[inst t']| |] eqn:I;
    [|vm_compute in I; discriminate..].
  rewrite HDB in Hurl. specialize (Hurl clean [] inst t' ltac:(by_decide) I).
  pose proof I as I'. vm_compute in I'. injection I' as <- <-.
  eexists _, _, _. split; [reflexivity|]. split; [reflexivity|].
  split; [vm_compute; reflexivity|]. split; [exact Hurl|exact Hcontains].
Defined.

(** ** Path fields *)




(** ** Nested groups *)

(** A complex field gets nothing from the environment source of a
    construction that succeeds. *)
Lemma data_complex_None cls p data f :
  build_values cls p ∅ = Ok data ->
  NoDup (name <$> fields__ cls) -> f ∈ fields__ cls -> is_complex f = true ->
  data !! name f = None.
Proof.
  intros Hb Hnd Hf Hc.
  rewrite (build_values_lookup _ _ _ _ f Hb Hnd Hf), lookup_empty.
  destruct (env_vars (config__ cls) p !! env_name (config__ cls) f) as [raw|] eqn:E;
    [|done].
  unfold build_values, EnvSettingsSource in Hb.
  apply bind_Ok in Hb as (env & Henv & _).
  rewrite (env_source_simple _ _ _ _ _ _ _ Henv Hf E) in Hc. discriminate.
Qed.

(** The turn of a nested field that the input leaves out: its factory is
    called, once, in the process of the construction, and the instance it
    returns is the value of the field. *)
Lemma validate_field_factory cls p data f sub t x t' :
  data !! name f = None ->
  field_default f = factory sub -> type_ f = TModel (name__ sub) ->
  validate_all (config__ cls) = true ->
  validate_field cls p data f t = Ok (x, t') ->
  exists v, x = FValue v /\
            BaseSettings_init sub p ∅ (t ++ [(name__ cls, name f)]) = Ok (v, t').
Proof.
  intros Hd Hf Hty Hall H. unfold validate_field, get_default in H.
  rewrite Hd, Hf, Hall in H. unfold factory in H.
  apply mbind_Ok in H as (v & u & Hv & H).
  apply mbind_Ok in Hv as ([] & u' & Htell & Hv).
  unfold tell in Htell. injection Htell as <-.
  apply lift_Ok in H as [H ->].
  destruct (init_Ok_instance _ _ _ _ _ _ Hv) as [d ->].
  unfold check, validate in H. rewrite Hty in H. simpl in H.
  rewrite String.eqb_refl in H. injection H as <-. eauto.
Qed.

(** The turn of a field with a literal default makes no factory call. *)
Lemma validate_field_literal cls p data f dv t x t' :
  field_default f = Default dv ->
  validate_field cls p data f t = Ok (x, t') -> t' = t.
Proof.
  intros Hf H. unfold validate_field, get_default in H. rewrite Hf in H.
  destruct (data !! name f); [by apply lift_Ok in H as [_ ->]|].
  apply mbind_Ok in H as (v & u & Hv & H). apply ret_Ok in Hv as [-> ->].
  destruct (validate_all (config__ cls)); [by apply lift_Ok in H as [_ ->]|].
  by apply ret_Ok in H as [_ ->].
Qed.

(** The construction of a class without factories does not depend on the
    trace it starts from. *)
Lemma validate_fields_leaf cls p data fs :
  (forall f, f ∈ fs -> exists v, field_default f = Default v) ->
  forall vs es, exists R, forall t, validate_fields cls p data fs vs es t = lift R t.
Proof.
  induction fs as [|f fs IH]; intros Hd vs es.
  - exists (Ok (vs, es)). reflexivity.
  - destruct (Hd f) as [dv Hdv]; [left|].
    assert (Hf : exists X, forall t, validate_field cls p data f t = lift X t).
    { unfold validate_field, get_default. rewrite Hdv.
      destruct (data !! name f); [eauto|].
      destruct (validate_all (config__ cls)); [eauto|].
      exists (Ok (FValue dv)). reflexivity. }
    destruct Hf as [X HX].
    assert (Hfs : forall g, g ∈ fs -> exists v, field_default g = Default v)
      by (intros g Hg; apply Hd; by right).
    destruct X as [[v|e]| |].
    + destruct (IH Hfs (vs ++ [(name f, v)]) es) as [R HR].
      exists R. intros t. simpl. unfold mbind. rewrite HX. simpl. apply HR.
    + destruct (IH Hfs vs (es ++ [e])) as [R HR].
      exists R. intros t. simpl. unfold mbind. rewrite HX. simpl. apply HR.
    + exists (Raise e). intros t. simpl. unfold mbind. by rewrite HX.
    + exists Unmodelled. intros t. simpl. unfold mbind. by rewrite HX.
Qed.

Lemma init_leaf cls p kwargs :
  literal_defaults cls ->
  exists R, forall t, BaseSettings_init cls p kwargs t = lift R t.
Proof.
  intros Hd. unfold BaseSettings_init, BaseModel_init, validate_model.
  destruct (build_values cls p kwargs) as [data| |].
  - destruct (validate_fields_leaf cls p data (fields__ cls) Hd [] []) as [R HR].
    destruct R as [[vs es]| |].
    + destruct (match extra (config__ cls) with
                | Allow =>
                    (vs ++ omap (fun k => pair k <$> data !! k) (extra_keys cls data), es)
                | Ignore => (vs, es)
                | Forbid => (vs, es ++ (ExtraError <$> extra_keys cls data))
                end) as [values errors] eqn:E.
      destruct errors as [|e l].
      * exists (Ok (VModel (name__ cls) values)). intros t.
        unfold mbind, lift, ret. rewrite HR. simpl. by rewrite E.
      * exists (Raise (ValidationError (name__ cls) (e :: l))). intros t.
        unfold mbind, lift, ret. rewrite HR. simpl. by rewrite E.
    + exists (Raise e). intros t. unfold mbind, lift. by rewrite HR.
    + exists Unmodelled. intros t. unfold mbind, lift. by rewrite HR.
  - exists (Raise e). reflexivity.
  - exists Unmodelled. reflexivity.
Qed.

Lemma init_leaf_any_trace cls p kwargs t v t' u :
  literal_defaults cls ->
  BaseSettings_init cls p kwargs t = Ok (v, t') ->
  BaseSettings_init cls p kwargs u = Ok (v, u).
Proof.
  intros Hd H. destruct (init_leaf cls p kwargs Hd) as [R HR].
  rewrite HR in *. destruct R; simpl in *; by simplify_eq.
Qed.

Lemma leaf_classes_literal p0 t0 m t1 :
  load p0 t0 = Ok (m, t1) ->
  literal_defaults (DatabaseSettings m) /\ literal_defaults DataLocationSettings /\
  literal_defaults APISettings /\ literal_defaults ServicesSettings /\
  literal_defaults (LoggingSettings m).
Proof.
  intros Hload.
  destruct (load_inv _ _ _ _ Hload) as (h & s & _ & _ & _ & _ & -> & -> & _).
  repeat split; intros f Hf;
    repeat (apply elem_of_cons in Hf as [->|Hf]; [simpl; eauto|]);
    by inversion Hf.
Qed.

(** A loop that starts with an error ends with one. *)
Lemma validate_fields_no_error cls p data fs vs es t r t' :
  validate_fields cls p data fs vs es t = Ok (r, t') -> es <> [] -> r.2 <> [].
Proof.
  destruct r as [vs' es']. intros H Hes.
  apply validate_fields_inv in H as (nv & ne & _ & -> & _).
  simpl. by intros [? _]%app_nil.
Qed.

Lemma validate_fields_cons cls p data f fs vs es t res :
  validate_fields cls p data (f :: fs) vs es t = Ok res ->
  exists (x : field_result) (u : trace),
    validate_field cls p data f t = Ok (x, u) /\
    match x with
    | FValue v => validate_fields cls p data fs (vs ++ [(name f, v)]) es u = Ok res
    | FError e => validate_fields cls p data fs vs (es ++ [e]) u = Ok res
    end.
Proof.
  simpl. intros H. apply mbind_Ok in H as (x & u & Hx & H).
  exists x, u. split; [done|]. by destruct x.
Qed.

(** The construction of [OrionSettings] calls the four factories, once
    each and in the order of the fields, in the process of the
    construction. *)
Lemma OrionSettings_init_inv p0 t0 m t1 p t inst t' :
  load p0 t0 = Ok (m, t1) ->
  BaseSettings_init (OrionSettings m) p ∅ t = Ok (inst, t') ->
  t' = t ++ orion_calls /\
  exists db da api sv,
    inst = VModel "OrionSettings"
             [("database", db); ("data", da); ("api", api); ("services", sv)] /\
    BaseSettings_init (DatabaseSettings m) p ∅ [] = Ok (db, []) /\
    BaseSettings_init DataLocationSettings p ∅ [] = Ok (da, []) /\
    BaseSettings_init APISettings p ∅ [] = Ok (api, []) /\
    BaseSettings_init ServicesSettings p ∅ [] = Ok (sv, []).
Proof.
  intros Hload H.
  destruct (leaf_classes_literal _ _ _ _ Hload) as (LDB & LDA & LAPI & LSV & _).
  apply init_Ok_inv in H as (data & d & Hb & Hv & _ & ->); [|reflexivity].
  assert (Hnd : NoDup (name <$> fields__ (OrionSettings m))) by by_decide.
  assert (Hnone : forall f, f ∈ fields__ (OrionSettings m) -> data !! name f = None).
  { intros f Hf. apply (data_complex_None _ _ _ _ Hb Hnd Hf).
    rewrite OrionSettings_fields in Hf.
    repeat (apply elem_of_cons in Hf as [->|Hf]; [reflexivity|]).
    by inversion Hf. }
  rewrite OrionSettings_fields in Hv, Hnone. cbn [validate_fields] in Hv.
  apply mbind_Ok in Hv as (x1 & u1 & H1 & Hv).
  eapply validate_field_factory in H1 as (db & -> & H1);
    [|apply Hnone; set_solver|reflexivity..].
  pose proof (init_trace _ _ _ _ _ _ LDB H1) as ->.
  apply mbind_Ok in Hv as (x2 & u2 & H2 & Hv).
  eapply validate_field_factory in H2 as (da & -> & H2);
    [|apply Hnone; set_solver|reflexivity..].
  pose proof (init_trace _ _ _ _ _ _ LDA H2) as ->.
  apply mbind_Ok in Hv as (x3 & u3 & H3 & Hv).
  eapply validate_field_factory in H3 as (api & -> & H3);
    [|apply Hnone; set_solver|reflexivity..].
  pose proof (init_trace _ _ _ _ _ _ LAPI H3) as ->.
  apply mbind_Ok in Hv as (x4 & u4 & H4 & Hv).
  eapply validate_field_factory in H4 as (sv & -> & H4);
    [|apply Hnone; set_solver|reflexivity..].
  pose proof (init_trace _ _ _ _ _ _ LSV H4) as ->.
  apply ret_Ok in Hv as [[= ->] ->].
  split; [by rewrite <- !app_assoc|].
  exists db, da, api, sv. split; [reflexivity|].
  split; [|split; [|split]]; eapply init_leaf_any_trace; eassumption.
Qed.

(** One turn of a scalar field in a loop that ends without an error. *)
Ltac scalar_turn Hv v :=
  let x := fresh "x" in
  let u := fresh "u" in
  let H := fresh "H" in
  apply validate_fields_cons in Hv as (x & u & H & Hv);
  eapply validate_field_literal in H; [|reflexivity]; subst u;
  destruct x as [v|?];
  [|exfalso; apply validate_fields_no_error in Hv; [by apply Hv|discriminate]].

(** One turn of a nested field. *)
Ltac nested_turn Hv v H :=
  let x := fresh "x" in
  let u := fresh "u" in
  apply validate_fields_cons in Hv as (x & u & H & Hv);
  eapply validate_field_factory in H as (v & -> & H);
  [|done|reflexivity..|done].

(** The construction of the root calls the factory of [logging], then that
    of [orion], which calls the four factories of [OrionSettings]. *)
Lemma Settings_init_inv p0 t0 m t1 p t inst t' :
  load p0 t0 = Ok (m, t1) ->
  BaseSettings_init (Settings m) p ∅ t = Ok (inst, t') ->
  t' = t ++ settings_calls ++ orion_calls /\
  exists lg o,
    getattr inst "logging" = Some lg /\ getattr inst "orion" = Some o /\
    BaseSettings_init (LoggingSettings m) p ∅ [] = Ok (lg, []) /\
    BaseSettings_init (OrionSettings m) p ∅ (t ++ settings_calls) = Ok (o, t').
Proof.
  intros Hload H.
  destruct (leaf_classes_literal _ _ _ _ Hload) as (_ & _ & _ & _ & LLG).
  destruct (load_inv _ _ _ _ Hload) as (h & s & _ & HPS & _).
  pose proof (Settings_config m h HPS) as Hc.
  pose proof (Settings_fields m h HPS) as Hfs.
  apply init_Ok_inv in H as (data & d & Hb & Hv & _ & ->); [|by rewrite Hc].
  assert (Hnd : NoDup (name <$> fields__ (Settings m))) by (rewrite Hfs; by_decide).
  assert (Hall : validate_all (config__ (Settings m)) = true) by by rewrite Hc.
  assert (Hlg : data !! "logging" = None).
  { apply (data_complex_None _ _ _
             (mkField "logging" (Plain (TModel (name__ (LoggingSettings m))))
                (factory (LoggingSettings m))) Hb Hnd); [|reflexivity].
    rewrite Hfs. set_solver. }
  assert (Hor : data !! "orion" = None).
  { apply (data_complex_None _ _ _
             (mkField "orion" (Plain (TModel "OrionSettings"))
                (factory (OrionSettings m))) Hb Hnd); [|reflexivity].
    rewrite Hfs. set_solver. }
  rewrite Hfs in Hv.
  scalar_turn Hv v1. scalar_turn Hv v2. scalar_turn Hv v3.
  nested_turn Hv lg H4.
  pose proof (init_trace _ _ _ _ _ _ LLG H4) as ->.
  nested_turn Hv o H5.
  destruct (OrionSettings_init_inv _ _ _ _ _ _ _ _ Hload H5) as [Hu5 _].
  scalar_turn Hv v6.
  apply ret_Ok in Hv as [[= ->] ->].
  change (name__ (Settings m)) with "Settings" in *.
  split; [rewrite Hu5; by rewrite <- !app_assoc|].
  exists lg, o. split; [reflexivity|]. split; [reflexivity|].
  split; [by eapply init_leaf_any_trace|].
  rewrite <- app_assoc in H5. exact H5.
Qed.



(** ** Values of the environment that do not validate *)

Lemma env_source_not_raise c vars fs d e : env_source c vars fs d <> Raise e.
Proof.
  revert d. induction fs as [|f fs IH]; intros d; simpl; [done|].
  destruct (vars !! env_name c f); [destruct (is_complex f); [done|]|]; apply IH.
Qed.

Lemma validate_field_literal_not_raise cls p data f dv t e :
  field_default f = Default dv -> validate_field cls p data f t <> Raise e.
Proof.
  intros Hf. unfold validate_field, get_default, check. rewrite Hf.
  destruct (data !! name f) as [x|].
  - destruct (validate f x); done.
  - unfold mbind, ret. destruct (validate_all (config__ cls)); [|done].
    destruct (validate f dv); done.
Qed.

Lemma validate_fields_leaf_not_raise cls p data fs vs es t e :
  (forall f, f ∈ fs -> exists v, field_default f = Default v) ->
  validate_fields cls p data fs vs es t <> Raise e.
Proof.
  revert vs es t. induction fs as [|f fs IH]; intros vs es t Hd; simpl; [done|].
  destruct (Hd f) as [dv Hdv]; [left|].
  assert (Hfs : forall g, g ∈ fs -> exists v, field_default g = Default v)
    by (intros g Hg; apply Hd; by right).
  unfold mbind.
  destruct (validate_field cls p data f t) as [[[v|e'] u]|e'|] eqn:E.
  - by apply IH.
  - by apply IH.
  - by apply validate_field_literal_not_raise with (dv := dv) in E.
  - done.
Qed.

(** The turn of a field whose variable holds a string that does not
    validate ends in the error of the validator, at the field. *)
Lemma validate_field_invalid cls p kwargs data f raw msg typ t :
  build_values cls p kwargs = Ok data ->
  NoDup (name <$> fields__ cls) -> f ∈ fields__ cls ->
  kwargs !! name f = None ->
  env_vars (config__ cls) p !! env_name (config__ cls) f = Some raw ->
  validate f (VStr raw) = Invalid msg typ ->
  validate_field cls p data f t = Ok (FError (mkError (name f) msg typ), t).
Proof.
  intros Hb Hnd Hf Hkw Hraw Hinv. unfold validate_field.
  rewrite (build_values_lookup _ _ _ _ f Hb Hnd Hf), Hkw, Hraw. simpl.
  unfold check. by rewrite Hinv.
Qed.

Lemma validate_field_deterministic_error cls p data f t e t1 x t2 :
  validate_field cls p data f t = Ok (FError e, t) ->
  validate_field cls p data f t1 = Ok (x, t2) ->
  (exists v, data !! name f = Some v) -> x = FError e.
Proof.
  unfold validate_field. intros H1 H2 [v Hv]. rewrite Hv in *.
  destruct (check f v); simpl in *; by simplify_eq.
Qed.

(** No construction succeeds on such a variable. *)
Lemma init_Ok_valid cls p t inst t' f raw msg typ :
  extra (config__ cls) = Forbid ->
  NoDup (name <$> fields__ cls) -> f ∈ fields__ cls ->
  env_vars (config__ cls) p !! env_name (config__ cls) f = Some raw ->
  validate f (VStr raw) = Invalid msg typ ->
  BaseSettings_init cls p ∅ t <> Ok (inst, t').
Proof.
  intros Hex Hnd Hf Hraw Hinv H.
  destruct (init_Ok_instance _ _ _ _ _ _ H) as [d ->].
  destruct (init_field _ _ _ _ _ _ f Hex Hnd Hf H)
    as (data & u1 & u2 & v & Hb & Hx & _).
  pose proof (validate_field_invalid _ _ _ _ f raw msg typ u1 Hb Hnd Hf
                (lookup_empty _) Hraw Hinv) as He.
  rewrite He in Hx. discriminate.
Qed.

(** A class without factories fails with a [ValidationError] that names
    the class and holds the error of the field. *)
Lemma init_invalid cls p t f raw msg typ :
  literal_defaults cls -> extra (config__ cls) = Forbid ->
  NoDup (name <$> fields__ cls) -> f ∈ fields__ cls ->
  env_vars (config__ cls) p !! env_name (config__ cls) f = Some raw ->
  validate f (VStr raw) = Invalid msg typ ->
  BaseSettings_init cls p ∅ t = Unmodelled \/
  exists errors,
    BaseSettings_init cls p ∅ t = Raise (ValidationError (name__ cls) errors) /\
    mkError (name f) msg typ ∈ errors.
Proof.
  intros Hd Hex Hnd Hf Hraw Hinv. unfold BaseSettings_init.
  destruct (build_values cls p ∅) as [data|e|] eqn:Hb; [| |by left].
  2:{ unfold build_values, EnvSettingsSource in Hb.
      destruct (env_source _ _ _ _) eqn:E; simpl in Hb; try done.
      by apply env_source_not_raise in E. }
  unfold BaseModel_init, validate_model, mbind, lift, ret. rewrite Hex.
  destruct (validate_fields cls p data (fields__ cls) [] [] t)
    as [[[vs es] u]|e|] eqn:Hv; [| |by left].
  2:{ by apply validate_fields_leaf_not_raise in Hv. }
  right.
  pose proof (validate_field_invalid _ _ _ _ f raw msg typ t Hb Hnd Hf
                (lookup_empty _) Hraw Hinv) as He.
  apply validate_fields_inv in Hv as (nv & ne & -> & -> & _ & Hall).
  destruct (Hall f Hf) as (u1 & u2 & x & Hx & Hin).
  assert (x = FError (mkError (name f) msg typ)) as ->.
  { eapply validate_field_deterministic_error; [exact He|exact Hx|].
    rewrite (build_values_lookup _ _ _ _ f Hb Hnd Hf), lookup_empty, Hraw.
    simpl. eauto. }
  simpl in *.
  assert (Hin' : mkError (name f) msg typ
                   ∈ ne ++ (ExtraError <$> extra_keys cls data))
    by (apply elem_of_app; by left).
  destruct (ne ++ (ExtraError <$> extra_keys cls data)) as [|e0 l];
    [by inversion Hin'|].
  eauto.
Qed.




(* ===================================================================== *)
(** * Further properties of the module *)
(* ===================================================================== *)

(** ** [drop_unset] on mappings *)

(** X1.  [drop_unset] is idempotent, and it returns its argument exactly
    when no value of the argument is [NOTSET]. *)
Theorem X1_drop_unset_idempotent (kwargs : gmap string value) :
  drop_unset (drop_unset kwargs) = drop_unset kwargs /\
  (drop_unset kwargs = kwargs <-> forall k, kwargs !! k <> Some NOTSET).
Proof.
  split; [|split].
  - apply map_eq. intros k. rewrite !drop_unset_lookup.
    destruct (kwargs !! k) as [x|]; [|done].
    destruct (ne_NOTSET x) eqn:E; [|done]. by rewrite E.
  - intros H k Hk. rewrite <- H, drop_unset_lookup in Hk.
    destruct (kwargs !! k) as [x|]; [|done].
    destruct (ne_NOTSET x) eqn:E; [|done]. by simplify_eq.
  - intros H. apply map_eq. intros k. rewrite drop_unset_lookup.
    specialize (H k). destruct (kwargs !! k) as [x|]; [|done].
    destruct x; simpl; done.
Qed.

(** X2.  Adding an override to the keyword mapping: an override other than
    [NOTSET] is added to the result of [drop_unset]; an override [NOTSET]
    removes the key from it, so that passing [NOTSET] for a field and not
    passing the field construct the same instance. *)
Theorem X2_drop_unset_insert (kwargs : gmap string value) (k : string) :
  (forall v, v <> NOTSET ->
     drop_unset (<[k := v]> kwargs) = <[k := v]> (drop_unset kwargs)) /\
  drop_unset (<[k := NOTSET]> kwargs) = drop_unset (delete k kwargs) /\
  (forall cls p t,
     BaseSettings_init cls p (drop_unset (<[k := NOTSET]> kwargs)) t
     = BaseSettings_init cls p (drop_unset (delete k kwargs)) t).
Proof.
  assert (Hdel : drop_unset (<[k := NOTSET]> kwargs) = drop_unset (delete k kwargs)).
  { apply map_eq. intros j. rewrite !drop_unset_lookup.
    destruct (decide (k = j)) as [->|Hne].
    - by rewrite lookup_insert_eq, lookup_delete_eq.
    - by rewrite lookup_insert_ne, lookup_delete_ne. }
  split; [|split].
  - intros v Hv. apply map_eq. intros j. rewrite drop_unset_lookup.
    destruct (decide (k = j)) as [->|Hne].
    + rewrite !lookup_insert_eq. destruct v; simpl; done.
    + rewrite !lookup_insert_ne by done. by rewrite drop_unset_lookup.
  - exact Hdel.
  - intros cls p t. by rewrite Hdel.
Qed.

Lemma X1_drop_unset_idempotent_witness :
  let kwargs : gmap string value := {[ "echo" := VBool true; "timeout" := VNone ]} in
  drop_unset kwargs = kwargs.
Proof.
  intros kwargs. destruct (X1_drop_unset_idempotent kwargs) as [_ [_ Hid]].
  apply Hid. intros k Hk.
  assert (H : kwargs !! k = Some NOTSET -> False); [|exact (H Hk)].
  unfold kwargs. intros H.
  apply lookup_insert_Some in H as [[_ H]|[_ H]]; [discriminate|].
  apply lookup_singleton_Some in H as [_ H]. discriminate.
Defined.

Lemma X2_drop_unset_insert_witness :
  drop_unset (<["port" := VInt 80]> {[ "host" := NOTSET ]})
  = <["port" := VInt 80]> (drop_unset {[ "host" := NOTSET ]}).
Proof.
  destruct (X2_drop_unset_insert {[ "host" := NOTSET ]} "port") as (Hins & _ & _).
  apply Hins. discriminate.
Defined.

(** ** What an instance holds *)

Lemma bool_validator_typed x v : bool_validator x = Valid v -> exists b, v = VBool b.
Proof.
  unfold bool_validator, BoolError. intros H.
  destruct x; repeat case_match; simplify_eq; eauto.
Qed.

Lemma int_validator_typed x v : int_validator x = Valid v -> exists z, v = VInt z.
Proof.
  unfold int_validator, IntegerError. intros H.
  destruct x; repeat case_match; simplify_eq; eauto.
Qed.

Lemma float_validator_typed x v : float_validator x = Valid v -> exists q, v = VFloat q.
Proof.
  unfold float_validator, of_float, FloatError. intros H.
  destruct x; repeat case_match; simplify_eq; eauto.
Qed.

Lemma str_validator_typed x v : str_validator x = Valid v -> exists s, v = VStr s.
Proof.
  unfold str_validator, StrError. intros H.
  destruct x; repeat case_match; simplify_eq; eauto.
Qed.

Lemma SecretStr_validate_typed x v :
  SecretStr_validate x = Valid v -> exists s, v = VSecretStr s.
Proof.
  unfold SecretStr_validate. intros H.
  destruct (str_validator x) as [w| |] eqn:E.
  - apply str_validator_typed in E as [s ->].
    destruct x; simplify_eq; eauto.
  - destruct x; simplify_eq; eauto.
  - destruct x; simplify_eq; eauto.
Qed.

Lemma path_validator_typed x v : path_validator x = Valid v -> exists s, v = VPath s.
Proof.
  unfold path_validator, PathError. intros H.
  destruct x; simplify_eq; eauto.
Qed.

Lemma parse_duration_typed x v :
  parse_duration x = Valid v -> exists us, v = VTimedelta us.
Proof.
  unfold parse_duration, seconds. intros H.
  destruct x; repeat case_match; simplify_eq; eauto.
Qed.

Lemma model_validate_typed cls x v :
  model_validate cls x = Valid v -> exists d, v = VModel cls d.
Proof.
  unfold model_validate, DictError. intros H.
  destruct x; repeat case_match; simplify_eq.
  match goal with
  | E : String.eqb _ _ = true |- _ => apply String.eqb_eq in E as ->
  end. eauto.
Qed.

(** A validator returns a value of the type of the field, or [None] where
    the field allows it. *)
Lemma validate_typed f x v : validate f x = Valid v -> field_typed f v = true.
Proof.
  unfold validate, field_typed. intros H.
  assert (Hty : validate_type (type_ f) x = Valid v -> has_type (type_ f) v = true
                /\ v <> VNone).
  { unfold validate_type. destruct (type_ f); intros Hv.
    - apply bool_validator_typed in Hv as [? ->]. done.
    - apply int_validator_typed in Hv as [? ->]. done.
    - apply float_validator_typed in Hv as [? ->]. done.
    - apply str_validator_typed in Hv as [? ->]. done.
    - apply path_validator_typed in Hv as [? ->]. done.
    - apply SecretStr_validate_typed in Hv as [? ->]. done.
    - apply parse_duration_typed in Hv as [? ->]. done.
    - apply model_validate_typed in Hv as [? ->]. simpl.
      by rewrite String.eqb_refl. }
  destruct x;
    [destruct (allow_none f) eqn:E; simplify_eq; by rewrite ?E|..];
    destruct (Hty H) as [Ht Hn]; destruct v; done.
Qed.

Lemma validate_fields_names cls p data fs vs es t vs' t' :
  validate_fields cls p data fs vs es t = Ok ((vs', es), t') ->
  vs'.*1 = vs.*1 ++ (name <$> fs).
Proof.
  revert vs t. induction fs as [|f fs IH]; intros vs t H.
  - apply ret_Ok in H as [[= ->] _]. by rewrite app_nil_r.
  - apply validate_fields_cons in H as ([v|e] & u & _ & H).
    + apply IH in H. rewrite H, fmap_app, <- app_assoc. reflexivity.
    + apply validate_fields_inv in H as (nv & ne & _ & Hes & _).
      apply (f_equal List.length) in Hes. rewrite !length_app in Hes.
      simpl in Hes. lia.
Qed.

Lemma validate_field_Valid cls p data f t1 v t2 :
  validate_all (config__ cls) = true ->
  validate_field cls p data f t1 = Ok (FValue v, t2) ->
  exists x, validate f x = Valid v.
Proof.
  intros Hall H. unfold validate_field in H. rewrite Hall in H.
  assert (Hchk : forall x u1 u2, lift (check f x) u1 = Ok (FValue v, u2) ->
                   validate f x = Valid v).
  { intros x u1 u2 Hc. apply lift_Ok in Hc as [Hc _]. unfold check in Hc.
    destruct (validate f x); by simplify_eq. }
  destruct (data !! name f) as [x|]; [eauto|].
  apply mbind_Ok in H as (x & u & _ & H). eauto.
Qed.

(** X3.  An instance constructed by a class of the module, whatever the
    process and the keyword arguments, holds exactly the fields the class
    declares, in the order of the declarations, and each of them holds a
    value of the declared type, or [None] where the field allows it. *)
Theorem X3_instance_typed p0 t0 m t1 cls p kwargs t inst t' :
  load p0 t0 = Ok (m, t1) -> cls ∈ classes m ->
  BaseSettings_init cls p kwargs t = Ok (inst, t') ->
  exists d,
    inst = VModel (name__ cls) d /\
    d.*1 = name <$> fields__ cls /\
    forall f, f ∈ fields__ cls ->
      exists v, dict_get d (name f) = Some v /\ field_typed f v = true.
Proof.
  intros Hload Hcls H.
  destruct (classes_wf _ _ _ _ _ Hload Hcls) as [Hex Hall _ Hnd _].
  destruct (init_Ok_instance _ _ _ _ _ _ H) as [d ->].
  exists d. split; [reflexivity|]. split.
  - apply init_Ok_inv in H as (data & d' & _ & Hv & _ & [= <-]); [|done].
    by apply validate_fields_names in Hv.
  - intros f Hf.
    destruct (init_field _ _ _ _ _ _ f Hex Hnd Hf H)
      as (data & u1 & u2 & v & _ & Hx & Hget).
    exists v. split; [done|].
    destruct (validate_field_Valid _ _ _ _ _ _ _ Hall Hx) as [x Hv].
    by apply validate_typed in Hv.
Qed.

Lemma X3_instance_typed_witness :
  exists m t inst,
    load clean [] = Ok (m, t) /\
    BaseSettings_init (DatabaseSettings m)
      (setenv "PREFECT_ORION_DATABASE_TIMEOUT" "2.5" clean)
      {[ "echo" := VStr "yes" ]} [] = Ok (inst, []) /\
    exists d, inst = VModel "DatabaseSettings" d /\
      d.*1 = [ "connection_url"; "echo"; "timeout"; "services_timeout" ].
Proof.
  destruct (load clean []) as [[m t]| |] eqn:E; [|vm_compute in E; discriminate..].
  destruct (BaseSettings_init (DatabaseSettings m)
              (setenv "PREFECT_ORION_DATABASE_TIMEOUT" "2.5" clean)
              {[ "echo" := VStr "yes" ]} []) as [[inst t']| |] eqn:I;
    [|pose proof E as E'; vm_compute in E'; injection E' as <- <-;
      vm_compute in I; discriminate..].
  destruct (X3_instance_typed clean [] m t (DatabaseSettings m) _ _ [] inst t' E
              ltac:(do 4 right; left) I) as (d & Hd & Hnames & _).
  pose proof E as E'. vm_compute in E'. injection E' as <- <-.
  pose proof I as I'. vm_compute in I'. injection I' as <- <-.
  eexists _, _, _. split; [reflexivity|]. split; [exact I|].
  exists d. split; [exact Hd|exact Hnames].
Defined.

(** ** Keyword arguments the constructor refuses *)

Lemma validate_NOTSET f v : validate f NOTSET <> Valid v.
Proof. unfold validate, validate_type. simpl. destruct (type_ f); done. Qed.

(** The turn of a field the input gives a value to validates that value. *)
Lemma validate_field_input cls p data f x t v t' :
  data !! name f = Some x ->
  validate_field cls p data f t = Ok (FValue v, t') -> validate f x = Valid v.
Proof.
  unfold validate_field. intros -> H. apply lift_Ok in H as [H _].
  unfold check in H. destruct (validate f x); by simplify_eq.
Qed.

(** X4.  [NOTSET] given to a constructor as it is, without [drop_unset],
    for any field of any class of the module: no instance is constructed,
    for no validator accepts the sentinel. *)
Theorem X4_NOTSET_refused p0 t0 m t1 cls f p kwargs t inst t' :
  load p0 t0 = Ok (m, t1) -> cls ∈ classes m -> f ∈ fields__ cls ->
  kwargs !! name f = Some NOTSET ->
  BaseSettings_init cls p kwargs t <> Ok (inst, t').
Proof.
  intros Hload Hcls Hf Hkw H.
  destruct (classes_wf _ _ _ _ _ Hload Hcls) as [Hex _ _ Hnd _].
  destruct (init_Ok_instance _ _ _ _ _ _ H) as [d ->].
  destruct (init_field _ _ _ _ _ _ f Hex Hnd Hf H)
    as (data & u1 & u2 & v & Hb & Hx & _).
  pose proof (build_values_lookup _ _ _ _ f Hb Hnd Hf) as Hl.
  rewrite Hkw in Hl.
  apply (validate_field_input _ _ _ _ _ _ _ _ Hl) in Hx.
  by apply validate_NOTSET in Hx.
Qed.

Lemma X4_NOTSET_refused_witness :
  exists m t,
    load clean [] = Ok (m, t) /\
    forall inst t',
      BaseSettings_init APISettings clean {[ "port" := NOTSET ]} [] <> Ok (inst, t').
Proof.
  destruct (load clean []) as [[m t]| |] eqn:E; [|vm_compute in E; discriminate..].
  exists m, t. split; [reflexivity|]. intros inst t'.
  apply (X4_NOTSET_refused clean [] m t APISettings
           (mkField "port" (Plain TInt) (Default (VInt 5000))) _ _ _ _ _ E).
  - do 6 right. left.
  - do 2 right. left.
  - vm_compute. reflexivity.
Defined.



(** ** The root and the shared settings *)

(** X6.  [Settings] extends [PrefectSettings]: the tree built when the
    module is loaded holds, at [home], [debug_mode] and [test_mode], the
    values the [SharedSettings] instance holds. *)
Theorem X6_root_inherits_shared p0 t0 m t1 n :
  load p0 t0 = Ok (m, t1) ->
  n ∈ [ "home"; "debug_mode"; "test_mode" ] ->
  exists v, getattr (SharedSettings m) n = Some v /\ getattr (settings m) n = Some v.
Proof.
  intros Hload Hn.
  destruct (load_inv _ _ _ _ Hload) as (h & s & _ & HPS & HSS & _ & _ & _ & Hst).
  pose proof (Settings_config m h HPS) as Hc.
  pose proof (Settings_fields m h HPS) as Hfs.
  destruct (init_Ok_instance _ _ _ _ _ _ HSS) as [d1 Hd1].
  destruct (init_Ok_instance _ _ _ _ _ _ Hst) as [d2 Hd2].
  rewrite Hd1 in HSS |- *. rewrite Hd2 in Hst |- *.
  rewrite <- drop_unset_empty in HSS, Hst.
  assert (Hgen : forall f dv,
            f ∈ fields__ (PrefectSettings_with h) -> field_default f = Default dv ->
            exists v, dict_get d1 (name f) = Some v /\ dict_get d2 (name f) = Some v).
  { intros f dv Hf Hdv.
    assert (Hnd1 : NoDup (name <$> fields__ (PrefectSettings m)))
      by (rewrite HPS; by_decide).
    assert (Hnd2 : NoDup (name <$> fields__ (Settings m)))
      by (rewrite Hfs; by_decide).
    assert (Hf1 : f ∈ fields__ (PrefectSettings m)) by by rewrite HPS.
    assert (Hf2 : f ∈ fields__ (Settings m)).
    { rewrite Hfs. apply list_elem_of_In. apply list_elem_of_In in Hf.
      simpl in *. intuition. }
    assert (He1 : extra (config__ (PrefectSettings m)) = Forbid) by by rewrite HPS.
    assert (Ha1 : validate_all (config__ (PrefectSettings m)) = true)
      by by rewrite HPS.
    assert (He2 : extra (config__ (Settings m)) = Forbid) by by rewrite Hc.
    assert (Ha2 : validate_all (config__ (Settings m)) = true) by by rewrite Hc.
    destruct (resolution_order (PrefectSettings m) p0 ∅ t0 d1 t0 f dv
                He1 Ha1 Hnd1 Hf1 Hdv HSS) as (v1 & Hg1 & Hv1).
    destruct (resolution_order (Settings m) p0 ∅ t0 d2 t1 f dv
                He2 Ha2 Hnd2 Hf2 Hdv Hst) as (v2 & Hg2 & Hv2).
    unfold resolution_source in Hv1, Hv2. rewrite Hc in Hv2. rewrite HPS in Hv1.
    rewrite Hv1 in Hv2. injection Hv2 as <-. eauto. }
  repeat (apply elem_of_cons in Hn as [->|Hn]); [..|by inversion Hn].
  - apply (Hgen (mkField "home" (Plain TPath) (Default (VPath h))) (VPath h));
      [left|done].
  - apply (Hgen (mkField "debug_mode" (Plain TBool) (Default (VBool false)))
             (VBool false)); [right; left|done].
  - apply (Hgen (mkField "test_mode" (Plain TBool) (Default (VBool false)))
             (VBool false)); [do 2 right; left|done].
Qed.

Lemma X6_root_inherits_shared_witness :
  exists m t,
    load (setenv "PREFECT_TEST_MODE" "1" clean) [] = Ok (m, t) /\
    getattr (SharedSettings m) "test_mode" = Some (VBool true) /\
    getattr (settings m) "test_mode" = Some (VBool true).
Proof.
  destruct (load (setenv "PREFECT_TEST_MODE" "1" clean) []) as [[m t]| |] eqn:E;
    [|vm_compute in E; discriminate..].
  destruct (X6_root_inherits_shared _ [] m t "test_mode" E ltac:(do 2 right; left))
    as (v & Hs & Hr).
  exists m, t. split; [reflexivity|].
  assert (v = VBool true) as ->.
  { pose proof E as E'. vm_compute in E'. injection E' as <- <-.
    vm_compute in Hs. by injection Hs. }
  split; [exact Hs|exact Hr].
Defined.

(** ** The environment of a loaded module *)

(** A construction that succeeds read, for each variable it found, a
    string the validator of the field accepts, and holds its value. *)
Lemma init_env_valid cls p t d t' f raw :
  extra (config__ cls) = Forbid ->
  NoDup (name <$> fields__ cls) -> f ∈ fields__ cls ->
  BaseSettings_init cls p ∅ t = Ok (VModel (name__ cls) d, t') ->
  env_vars (config__ cls) p !! env_name (config__ cls) f = Some raw ->
  is_complex f = false /\
  exists v, validate f (VStr raw) = Valid v /\ dict_get d (name f) = Some v.
Proof.
  intros Hex Hnd Hf H Hraw.
  destruct (init_field _ _ _ _ _ _ f Hex Hnd Hf H)
    as (data & u1 & u2 & v & Hb & Hx & Hget).
  pose proof (build_values_lookup _ _ _ _ f Hb Hnd Hf) as Hl.
  rewrite lookup_empty, Hraw in Hl. simpl in Hl.
  split.
  - unfold build_values, EnvSettingsSource in Hb.
    apply bind_Ok in Hb as (env & Henv & _).
    exact (env_source_simple _ _ _ _ _ _ _ Henv Hf Hraw).
  - exists v. split; [|done].
    exact (validate_field_input _ _ _ _ _ _ _ _ Hl Hx).
Qed.



(** ** Assignment to an attribute *)

Lemma dict_get_set d n v : dict_get (dict_set d n v) n = Some v.
Proof.
  induction d as [|[k w] d IH]; simpl.
  - by rewrite String.eqb_refl.
  - destruct (String.eqb_spec k n) as [->|Hne]; simpl.
    + by rewrite String.eqb_refl.
    + destruct (String.eqb_spec k n); [done|exact IH].
Qed.

Lemma dict_get_set_ne d n v n' :
  n' <> n -> dict_get (dict_set d n v) n' = dict_get d n'.
Proof.
  intros Hne. induction d as [|[k w] d IH]; simpl.
  - destruct (String.eqb_spec n n'); [by subst|done].
  - destruct (String.eqb_spec k n) as [->|Hk]; simpl.
    + destruct (String.eqb_spec n n'); [by subst|done].
    + destruct (String.eqb_spec k n'); [done|exact IH].
Qed.

(** X8.  No class of the module takes a public attribute (a name that
    does not begin with an underscore) it does not declare: the assignment
    raises a [ValueError] that names the class and the attribute, and the
    instance is left as it was.  [APISettings], the one
    class that is not frozen, stores what is assigned to a field as it is,
    of the type of the field or not, and leaves its other fields alone. *)
Theorem X8_assignment_frame p0 t0 m t1 :
  load p0 t0 = Ok (m, t1) ->
  (forall cls d n v,
     cls ∈ classes m -> n ∉ name <$> fields__ cls ->
     String.prefix "_" n = false ->
     setattr cls (VModel (name__ cls) d) n v
     = (Some (ValueError (quoted (name__ cls) +:+ " object has no field "
                          +:+ quoted n)),
        VModel (name__ cls) d)) /\
  (forall d n v,
     n ∈ name <$> fields__ APISettings ->
     exists d',
       setattr APISettings (VModel "APISettings" d) n v
       = (None, VModel "APISettings" d') /\
       dict_get d' n = Some v /\
       forall n', n' <> n -> dict_get d' n' = dict_get d n').
Proof.
  intros Hload. split.
  - intros cls d n v Hcls Hn _.
    destruct (classes_wf _ _ _ _ _ Hload Hcls) as [Hex _ _ _ _].
    unfold setattr. rewrite Hex. simpl.
    by rewrite bool_decide_eq_false_2.
  - intros d n v Hn. exists (dict_set d n v).
    split; [|split].
    + unfold setattr. simpl. by rewrite bool_decide_eq_true_2.
    + apply dict_get_set.
    + intros n' Hne. by apply dict_get_set_ne.
Qed.

Lemma X8_assignment_frame_witness :
  exists m t api api',
    load clean [] = Ok (m, t) /\
    (getattr (settings m) "orion" ≫= fun o => getattr o "api") = Some api /\
    setattr APISettings api "port" (VStr "http") = (None, api') /\
    getattr api' "port" = Some (VStr "http") /\
    getattr api' "host" = Some (VStr "127.0.0.1") /\
    exists msg, setattr APISettings api "workers" (VInt 4)
                = (Some (ValueError msg), api).
Proof.
  destruct (load clean []) as [[m t]| |] eqn:E;
    [|vm_compute in E; discriminate..].
  destruct (X8_assignment_frame clean [] m t E) as (Hval & Hset).
  pose proof E as E'. vm_compute in E'. injection E' as <- <-.
  destruct (Hset [ ("default_limit", VInt 200); ("host", VStr "127.0.0.1");
                   ("port", VInt 5000); ("uvicorn_log_level", VStr "info") ]
              "port" (VStr "http") ltac:(do 2 right; left))
    as (d' & Hs & Hg & Hfr).
  eexists _, _, (VModel "APISettings" _), (VModel "APISettings" d').
  split; [reflexivity|]. split; [vm_compute; reflexivity|].
  split; [exact Hs|]. split; [exact Hg|].
  split; [simpl; rewrite (Hfr "host") by done; reflexivity|].
  eexists. apply (Hval APISettings); [do 6 right; left| |reflexivity].
  intros Hin. vm_compute in Hin.
  repeat (apply elem_of_cons in Hin as [Hin|Hin]; [discriminate|]).
  by inversion Hin.
Defined.

(** ** The tree of a process that sets no variable of the settings *)

Lemma mbind_fwd {A B} (m : M A) (k : A -> M B) t a t' :
  m t = Ok (a, t') -> mbind m k t = k a t'.
Proof. unfold mbind. by intros ->. Qed.

Lemma unset_settings_variable c p k :
  case_sensitive c = false -> no_settings_variable p ->
  k ∈ lower <$> settings_variables -> env_vars c p !! k = None.
Proof.
  intros Hc Hno Hk. apply list_elem_of_fmap in Hk as (var & -> & Hvar).
  apply env_vars_unset; [done|].
  unfold no_settings_variable in Hno. rewrite Forall_forall in Hno. by apply Hno.
Qed.

Lemma extra_keys_empty cls : extra_keys cls ∅ = [].
Proof. unfold extra_keys. by rewrite dom_empty_L, elements_empty. Qed.

(** The construction from an empty input, once the loop over the fields
    has ended without an error. *)
Lemma init_default cls p vs t t' :
  extra (config__ cls) = Forbid ->
  (forall f, f ∈ fields__ cls ->
             env_vars (config__ cls) p !! env_name (config__ cls) f = None) ->
  validate_fields cls p ∅ (fields__ cls) [] [] t = Ok ((vs, []), t') ->
  BaseSettings_init cls p ∅ t = Ok (VModel (name__ cls) vs, t').
Proof.
  intros Hex Hno Hv. rewrite (init_unset _ _ _ Hno).
  unfold BaseModel_init, validate_model, mbind, ret.
  by rewrite Hv, Hex, extra_keys_empty.
Qed.

(** The turn of a field the input leaves out. *)
Lemma validate_fields_default_turn cls p f dv v fs vs es t :
  field_default f = Default dv -> validate_all (config__ cls) = true ->
  validate f dv = Valid v ->
  validate_fields cls p ∅ (f :: fs) vs es t
  = validate_fields cls p ∅ fs (vs ++ [(name f, v)]) es t.
Proof.
  intros Hd Hall Hv. simpl.
  unfold validate_field, get_default, check, mbind, ret, lift.
  by rewrite lookup_empty, Hd, Hall, Hv.
Qed.

Lemma validate_fields_factory_turn cls p f sub d fs vs es t t' :
  field_default f = factory sub -> type_ f = TModel (name__ sub) ->
  validate_all (config__ cls) = true ->
  BaseSettings_init sub p ∅ (t ++ [(name__ cls, name f)])
  = Ok (VModel (name__ sub) d, t') ->
  validate_fields cls p ∅ (f :: fs) vs es t
  = validate_fields cls p ∅ fs (vs ++ [(name f, VModel (name__ sub) d)]) es t'.
Proof.
  intros Hd Hty Hall Hsub. simpl.
  unfold validate_field, get_default, check, validate, mbind, ret, lift, tell.
  rewrite lookup_empty, Hd, Hall. unfold factory. rewrite Hsub, Hty. simpl.
  by rewrite String.eqb_refl.
Qed.

(** The variables of the fields of a class are among those of the
    settings. *)
Ltac fields_unset Hno :=
  let f := fresh "f" in
  let Hf := fresh "Hf" in
  intros f Hf; apply unset_settings_variable; [reflexivity|exact Hno|];
  repeat (apply elem_of_cons in Hf as [->|Hf]; [by_decide|]);
  by inversion Hf.

Ltac leaf_default Hno :=
  rewrite init_unset by fields_unset Hno; vm_compute; reflexivity.

Section Defaults.

Variables (p : process) (h : string).
Hypothesis Hno : no_settings_variable p.

Lemma PrefectSettings_default t :
  BaseSettings_init (PrefectSettings_with h) p ∅ t
  = Ok (VModel "PrefectSettings" (default_shared h), t).
Proof. leaf_default Hno. Qed.

Lemma LoggingSettings_default t :
  BaseSettings_init (LoggingSettings_with (settings_path_of h)) p ∅ t
  = Ok (default_logging h, t).
Proof.
  unfold default_logging. generalize (settings_path_of h). intros s.
  leaf_default Hno.
Qed.

Lemma DatabaseSettings_default t :
  BaseSettings_init (DatabaseSettings_with (connection_url_of h)) p ∅ t
  = Ok (default_database h, t).
Proof.
  unfold default_database. generalize (connection_url_of h). intros s.
  leaf_default Hno.
Qed.

Lemma DataLocationSettings_default t :
  BaseSettings_init DataLocationSettings p ∅ t = Ok (default_data, t).
Proof. leaf_default Hno. Qed.

Lemma APISettings_default t :
  BaseSettings_init APISettings p ∅ t = Ok (default_api, t).
Proof. leaf_default Hno. Qed.

Lemma ServicesSettings_default t :
  BaseSettings_init ServicesSettings p ∅ t = Ok (default_services, t).
Proof. leaf_default Hno. Qed.

Lemma OrionSettings_default t :
  BaseSettings_init
    (OrionSettings_class (DatabaseSettings_with (connection_url_of h))) p ∅ t
  = Ok (default_orion h, t ++ orion_calls).
Proof.
  apply (init_default (OrionSettings_class _)); [reflexivity|fields_unset Hno|].
  change (fields__ (OrionSettings_class ?db))
    with [ mkField "database" (Plain (TModel (name__ db))) (factory db);
           mkField "data" (Plain (TModel "DataLocationSettings"))
             (factory DataLocationSettings);
           mkField "api" (Plain (TModel "APISettings")) (factory APISettings);
           mkField "services" (Plain (TModel "ServicesSettings"))
             (factory ServicesSettings) ].
  erewrite validate_fields_factory_turn;
    [|reflexivity..|apply DatabaseSettings_default].
  erewrite validate_fields_factory_turn;
    [|reflexivity..|apply DataLocationSettings_default].
  erewrite validate_fields_factory_turn;
    [|reflexivity..|apply APISettings_default].
  erewrite validate_fields_factory_turn;
    [|reflexivity..|apply ServicesSettings_default].
  simpl. unfold ret, orion_calls. by rewrite <- !app_assoc.
Qed.

Lemma Settings_default t :
  BaseSettings_init
    (Settings_class (PrefectSettings_with h)
       (LoggingSettings_with (settings_path_of h))
       (OrionSettings_class (DatabaseSettings_with (connection_url_of h))))
    p ∅ t
  = Ok (default_tree h, t ++ settings_calls ++ orion_calls).
Proof.
  apply (init_default (Settings_class _ _ _)); [reflexivity|fields_unset Hno|].
  change (fields__ (Settings_class ?ps ?lg ?o))
    with [ mkField "home" (Plain TPath) (Default (VPath h));
           mkField "debug_mode" (Plain TBool) (Default (VBool false));
           mkField "test_mode" (Plain TBool) (Default (VBool false));
           mkField "logging" (Plain (TModel (name__ lg))) (factory lg);
           mkField "orion" (Plain (TModel (name__ o))) (factory o);
           mkField "orion_host" (Plain TStr) (Default VNone) ].
  do 3 (erewrite validate_fields_default_turn; [|reflexivity..]).
  erewrite validate_fields_factory_turn;
    [|reflexivity..|apply LoggingSettings_default].
  erewrite validate_fields_factory_turn;
    [|reflexivity..|apply OrionSettings_default].
  erewrite validate_fields_default_turn; [|reflexivity..].
  simpl. unfold ret, settings_calls, orion_calls. by rewrite <- !app_assoc.
Qed.

End Defaults.



(** ** What the settings read of a process *)

Lemma fmap_eq_elem {A B} (f g : A -> B) (l : list A) x :
  f <$> l = g <$> l -> x ∈ l -> f x = g x.
Proof.
  induction l as [|a l IH]; intros Heq Hx; [by inversion Hx|].
  injection Heq as Ha Hl. apply elem_of_cons in Hx as [->|Hx]; auto.
Qed.

Section SameEnvironment.

Variables (p p' : process).
Hypothesis Henv : settings_environment p = settings_environment p'.

Lemma env_vars_same c k :
  case_sensitive c = false -> k ∈ lower <$> settings_variables ->
  env_vars c p !! k = env_vars c p' !! k.
Proof.
  intros Hc Hk. apply list_elem_of_fmap in Hk as (var & -> & Hvar).
  assert (Hb : forall q, env_vars c q = env_vars (config__ BaseSettings) q).
  { intros q. unfold env_vars, env_key. by rewrite Hc. }
  rewrite !Hb.
  exact (fmap_eq_elem
           (fun var => env_vars (config__ BaseSettings) p !! lower var)
           (fun var => env_vars (config__ BaseSettings) p' !! lower var)
           settings_variables var Henv Hvar).
Qed.

Lemma env_source_same c vars vars' fs :
  (forall f, f ∈ fs -> vars !! env_name c f = vars' !! env_name c f) ->
  forall d, env_source c vars fs d = env_source c vars' fs d.
Proof.
  induction fs as [|f fs IH]; intros H d; simpl; [done|].
  rewrite <- (H f) by left.
  assert (Hfs : forall g, g ∈ fs -> vars !! env_name c g = vars' !! env_name c g)
    by (intros g Hg; apply H; by right).
  destruct (vars !! env_name c f); [destruct (is_complex f)|]; auto.
Qed.

Lemma validate_fields_same cls data fs :
  (forall f, f ∈ fs -> forall t, get_default cls f p t = get_default cls f p' t) ->
  forall vs es t,
    validate_fields cls p data fs vs es t = validate_fields cls p' data fs vs es t.
Proof.
  induction fs as [|f fs IH]; intros H vs es t; simpl; [done|].
  assert (Hf : validate_field cls p data f t = validate_field cls p' data f t).
  { unfold validate_field. destruct (data !! name f); [done|].
    unfold mbind. by rewrite (H f) by left. }
  assert (Hfs : forall g, g ∈ fs ->
                  forall u, get_default cls g p u = get_default cls g p' u)
    by (intros g Hg; apply H; by right).
  unfold mbind. rewrite Hf.
  destruct (validate_field cls p' data f t) as [[[v|e] u]| |]; auto.
Qed.

(** A class whose variables are among those of the settings, and whose
    defaults are the same in the two processes, constructs the same. *)
Lemma init_same cls :
  case_sensitive (config__ cls) = false ->
  (forall f, f ∈ fields__ cls ->
             env_name (config__ cls) f ∈ lower <$> settings_variables) ->
  (forall f, f ∈ fields__ cls ->
             forall t, get_default cls f p t = get_default cls f p' t) ->
  forall kwargs t,
    BaseSettings_init cls p kwargs t = BaseSettings_init cls p' kwargs t.
Proof.
  intros Hc Hvars Hdef kwargs t.
  unfold BaseSettings_init, build_values, EnvSettingsSource.
  rewrite (env_source_same (config__ cls) (env_vars (config__ cls) p)
             (env_vars (config__ cls) p') (fields__ cls));
    [|intros f Hf; apply env_vars_same; auto].
  unfold mbind, lift.
  destruct (bind (env_source _ _ _ _) _) as [data| |]; [|done..].
  unfold BaseModel_init, validate_model, mbind.
  by rewrite (validate_fields_same cls data (fields__ cls) Hdef).
Qed.

Lemma get_default_factory_same cls f sub :
  field_default f = factory sub ->
  (forall t, BaseSettings_init sub p ∅ t = BaseSettings_init sub p' ∅ t) ->
  forall t, get_default cls f p t = get_default cls f p' t.
Proof.
  intros Hd H t. unfold get_default. rewrite Hd.
  unfold factory, mbind, tell. apply H.
Qed.

Lemma get_default_literal_same cls f dv :
  field_default f = Default dv ->
  forall t, get_default cls f p t = get_default cls f p' t.
Proof. intros Hd t. unfold get_default. by rewrite Hd. Qed.

Ltac same_class :=
  apply init_same;
  [ reflexivity
  | let f := fresh "f" in
    let Hf := fresh "Hf" in
    intros f Hf;
    repeat (apply elem_of_cons in Hf as [->|Hf]; [by_decide|]);
    by inversion Hf
  | let f := fresh "f" in
    let Hf := fresh "Hf" in
    intros f Hf;
    repeat (apply elem_of_cons in Hf as [->|Hf];
            [first [ eapply get_default_literal_same; reflexivity
                   | eapply get_default_factory_same; [reflexivity|];
                     intros; auto ]|]);
    by inversion Hf ].

Lemma PrefectSettings_same h kwargs t :
  BaseSettings_init (PrefectSettings_with h) p kwargs t
  = BaseSettings_init (PrefectSettings_with h) p' kwargs t.
Proof. revert kwargs t. same_class. Qed.

Lemma LoggingSettings_same s kwargs t :
  BaseSettings_init (LoggingSettings_with s) p kwargs t
  = BaseSettings_init (LoggingSettings_with s) p' kwargs t.
Proof. revert kwargs t. same_class. Qed.

Lemma DatabaseSettings_same u kwargs t :
  BaseSettings_init (DatabaseSettings_with u) p kwargs t
  = BaseSettings_init (DatabaseSettings_with u) p' kwargs t.
Proof. revert kwargs t. same_class. Qed.

Lemma DataLocationSettings_same kwargs t :
  BaseSettings_init DataLocationSettings p kwargs t
  = BaseSettings_init DataLocationSettings p' kwargs t.
Proof. revert kwargs t. same_class. Qed.

Lemma APISettings_same kwargs t :
  BaseSettings_init APISettings p kwargs t
  = BaseSettings_init APISettings p' kwargs t.
Proof. revert kwargs t. same_class. Qed.

Lemma ServicesSettings_same kwargs t :
  BaseSettings_init ServicesSettings p kwargs t
  = BaseSettings_init ServicesSettings p' kwargs t.
Proof. revert kwargs t. same_class. Qed.

Lemma OrionSettings_same u kwargs t :
  BaseSettings_init (OrionSettings_class (DatabaseSettings_with u)) p kwargs t
  = BaseSettings_init (OrionSettings_class (DatabaseSettings_with u)) p' kwargs t.
Proof.
  pose proof (DatabaseSettings_same u ∅). pose proof (DataLocationSettings_same ∅).
  pose proof (APISettings_same ∅). pose proof (ServicesSettings_same ∅).
  revert kwargs t. same_class.
Qed.

Lemma Settings_same h s u kwargs t :
  BaseSettings_init
    (Settings_class (PrefectSettings_with h) (LoggingSettings_with s)
       (OrionSettings_class (DatabaseSettings_with u))) p kwargs t
  = BaseSettings_init
      (Settings_class (PrefectSettings_with h) (LoggingSettings_with s)
         (OrionSettings_class (DatabaseSettings_with u))) p' kwargs t.
Proof.
  pose proof (LoggingSettings_same s ∅). pose proof (OrionSettings_same u ∅).
  revert kwargs t. same_class.
Qed.

End SameEnvironment.

(** Loading the module, by cases on its two constructions and on the
    f-string of the derived defaults. *)
Lemma load_cases p t :
  load p t =
    let h := Path (user_home p +:+ "/.prefect") in
    match BaseSettings_init (PrefectSettings_with h) p ∅ t with
    | Ok (SS, u) =>
        match format_attr SS "home" with
        | Ok s =>
            match BaseSettings_init
                    (Settings_class (PrefectSettings_with h)
                       (LoggingSettings_with (Path (s +:+ "/logging.yml")))
                       (OrionSettings_class
                          (DatabaseSettings_with
                             ("sqlite+aiosqlite:////" +:+ s +:+ "/orion.db"))))
                    p ∅ u with
            | Ok (st, u') =>
                Ok (mkModule (PrefectSettings_with h) SS
                      (DatabaseSettings_with
                         ("sqlite+aiosqlite:////" +:+ s +:+ "/orion.db"))
                      (LoggingSettings_with (Path (s +:+ "/logging.yml"))) st, u')
            | Raise e => Raise e
            | Unmodelled => Unmodelled
            end
        | Raise e => Raise e
        | Unmodelled => Unmodelled
        end
    | Raise e => Raise e
    | Unmodelled => Unmodelled
    end.
Proof.
  unfold load.
  change (PrefectSettings_class p)
    with (Ok (A:=ModelClass)
            (PrefectSettings_with (Path (user_home p +:+ "/.prefect")))).
  generalize (Path (user_home p +:+ "/.prefect")). intros h.
  unfold mbind, lift, ret, DatabaseSettings_class, LoggingSettings_class, bind.
  cbv zeta.
  destruct (BaseSettings_init (PrefectSettings_with h) p ∅ t)
    as [[SS u]| |]; [|reflexivity..].
  destruct (format_attr SS "home") as [s| |]; [|reflexivity..].
  destruct (BaseSettings_init _ p ∅ u) as [[st u']| |]; reflexivity.
Qed.



(** ** Keyword arguments of the type of their field *)

(** A value of the type of a field passes its validator unchanged. *)
Lemma typed_validate f v : field_typed f v = true -> validate f v = Valid v.
Proof.
  unfold field_typed, validate, validate_type.
  destruct v; try (intros ->; reflexivity);
    destruct (type_ f); simpl; try discriminate; try reflexivity.
  intros H. apply String.eqb_eq in H as ->. by rewrite String.eqb_refl.
Qed.

(** The loop makes a factory call only for a field the input leaves out. *)
Lemma validate_fields_given cls p data fs vs es t r t' :
  (forall f, f ∈ fs ->
     (exists v, field_default f = Default v) \/ is_Some (data !! name f)) ->
  validate_fields cls p data fs vs es t = Ok (r, t') -> t' = t.
Proof.
  revert vs es t. induction fs as [|f fs IH]; intros vs es t Hd H; simpl in H.
  - by inv_M.
  - apply mbind_Ok in H as (x & t1 & Hx & H).
    assert (t1 = t) as ->.
    { unfold validate_field, get_default in Hx.
      destruct (data !! name f) eqn:E; [by inv_M|].
      destruct (Hd f) as [[dv Hdv]|[? Hs]]; [left| |by rewrite E in Hs].
      rewrite Hdv in Hx.
      apply mbind_Ok in Hx as (? & ? & ? & Hx). inv_M.
      destruct (validate_all (config__ cls)); by inv_M. }
    destruct x; eapply IH; eauto; intros g Hg; apply Hd; by right.
Qed.

(** X11.  A keyword argument of the type of its field is held as it is,
    whatever the environment: a value of a scalar field, [None] for a
    field that allows it, an instance of the nested class for a nested
    field.  When every nested field is given by keyword the construction
    calls no default factory. *)
Theorem X11_keyword_kept p0 t0 m t1 cls p kwargs t inst t' :
  load p0 t0 = Ok (m, t1) -> cls ∈ classes m ->
  BaseSettings_init cls p kwargs t = Ok (inst, t') ->
  (forall f v,
     f ∈ fields__ cls -> kwargs !! name f = Some v -> field_typed f v = true ->
     getattr inst (name f) = Some v) /\
  ((forall g, g ∈ fields__ cls -> is_complex g = true ->
              is_Some (kwargs !! name g)) ->
   t' = t).
Proof.
  intros Hload Hcls H.
  destruct (classes_wf _ _ _ _ _ Hload Hcls) as [Hex Hall _ Hnd Hdef].
  destruct (init_Ok_instance _ _ _ _ _ _ H) as [d ->].
  split.
  - intros f v Hf Hk Hty.
    destruct (init_field _ _ _ _ _ _ f Hex Hnd Hf H)
      as (data & u1 & u2 & w & Hb & Hx & Hget).
    pose proof (build_values_lookup _ _ _ _ f Hb Hnd Hf) as Hl.
    rewrite Hk in Hl.
    pose proof (validate_field_input _ _ _ _ _ _ _ _ Hl Hx) as Hv.
    rewrite (typed_validate f v Hty) in Hv. injection Hv as <-.
    exact Hget.
  - intros Hgiven.
    apply init_Ok_inv in H as (data & d' & Hb & Hv & _ & _); [|done].
    apply validate_fields_given in Hv; [done|].
    intros f Hf. rewrite Forall_forall in Hdef.
    destruct (is_complex f) eqn:Hc.
    + right. rewrite (build_values_lookup _ _ _ _ f Hb Hnd Hf).
      destruct (Hgiven f Hf Hc) as [v ->]. eauto.
    + left. destruct (Hdef f Hf Hc) as (dv & _ & -> & _). eauto.
Qed.

Lemma X11_keyword_kept_witness :
  let p := setenv "PREFECT_ORION_DATABASE_ECHO" "true" clean in
  let kwargs : gmap string value :=
    {[ "database" := default_database "/srv"; "data" := default_data;
       "api" := default_api; "services" := default_services ]} in
  exists m t inst,
    load clean [] = Ok (m, t) /\
    BaseSettings_init (OrionSettings m) p kwargs [] = Ok (inst, []) /\
    getattr inst "database" = Some (default_database "/srv").
Proof.
  intros p kwargs.
  destruct (load clean []) as [[m t]| |] eqn:E; [|vm_compute in E; discriminate..].
  destruct (BaseSettings_init (OrionSettings m) p kwargs [])
    as [[inst t']| |] eqn:I;
    [|pose proof E as E'; vm_compute in E'; injection E' as <- <-;
      vm_compute in I; discriminate..].
  destruct (X11_keyword_kept clean [] m t (OrionSettings m) p kwargs [] inst t'
              E ltac:(do 3 right; left) I) as (Hkept & Htrace).
  assert (t' = []) as ->.
  { apply Htrace. intros g Hg _. rewrite OrionSettings_fields in Hg.
    repeat (apply elem_of_cons in Hg as [->|Hg];
            [eexists; vm_compute; reflexivity|]).
    by inversion Hg. }
  exists m, t, inst. split; [reflexivity|]. split; [exact I|].
  pose proof E as E'. vm_compute in E'. injection E' as <- <-.
  apply (Hkept (mkField "database" (Plain (TModel "DatabaseSettings"))
                  (factory (DatabaseSettings_with
                              (connection_url_of "/home/u/.prefect"))))).
  - left.
  - vm_compute. reflexivity.
  - reflexivity.
Defined.

(** ** The errors a construction reports *)

(** The loop over the fields of a class without factories, in closed
    form. *)
Lemma validate_fields_closed cls p data fs :
  validate_all (config__ cls) = true ->
  (forall f, f ∈ fs -> exists dv, field_default f = Default dv) ->
  (forall f x, f ∈ fs -> field_input data f = Some x -> validate f x <> NoModel) ->
  forall vs es t, exists nv,
    validate_fields cls p data fs vs es t
    = Ok ((vs ++ nv, es ++ omap (field_error data) fs), t).
Proof.
  intros Hall. induction fs as [|f fs IH]; intros Hd Hm vs es t.
  - exists []. simpl. by rewrite !app_nil_r.
  - destruct (Hd f) as [dv Hdv]; [left|].
    assert (Hin : exists x, field_input data f = Some x /\
                    validate_field cls p data f t = lift (check f x) t).
    { unfold field_input, validate_field, get_default. rewrite Hdv, Hall.
      destruct (data !! name f) as [x|]; eauto. }
    destruct Hin as (x & Hx & Hf).
    assert (Hfs : forall g, g ∈ fs -> exists dv, field_default g = Default dv)
      by (intros g Hg; apply Hd; by right).
    assert (Hms : forall g y, g ∈ fs -> field_input data g = Some y ->
                    validate g y <> NoModel)
      by (intros g y Hg; apply Hm; by right).
    simpl. unfold mbind. rewrite Hf. unfold lift, check, field_error.
    rewrite Hx. simpl.
    pose proof (Hm f x ltac:(left) Hx) as Hno.
    destruct (validate f x) as [v|msg typ|]; [| |done].
    + destruct (IH Hfs Hms (vs ++ [(name f, v)]) es t) as [nv ->].
      exists ((name f, v) :: nv). by rewrite <- app_assoc.
    + destruct (IH Hfs Hms vs (es ++ [mkError (name f) msg typ]) t) as [nv ->].
      exists nv. by rewrite <- app_assoc.
Qed.


